(** * PDF-Bot: a shallow embedding of [main.py]

    The script is a Streamlit page: every user action re-runs it from the
    top against the session state.  The embedding follows the script:

    - [Py]      the Python values the script handles (what [json.loads]
                returns), with the builtins it applies to them;
    - [Json]    [json.loads], as the decoder of the [json] module scans,
                within the recursion limit and the digit limit of the
                interpreter;
    - [Eff]     the effects of a run: session state, what is shown on the
                page, requests sent, the temporary files, exceptions;
    - [App]     the functions and the handlers of [main.py], and the
                uploader widget of line 121;
    - [Notions] the data model of a quiz and the other notions in which
                the properties are stated, with worlds for the examples;
    - [Frames]  the notions of the properties of the handlers;
    - the properties: the decoder, the prompt, the quiz parser, the
      inference client, the generation handler, the uploader and the text
      extractor, the check of the answers, the form and a whole run.

    Python [str] values are modelled by their UTF-8 bytes ([string]);
    equality, emptiness and concatenation are the same on both sides. *)

From Stdlib Require Import ZArith NArith List String Ascii Bool Lia.
From stdpp Require Import base option list gmap strings pretty.

Set Warnings "-register-all".
Local Open Scope string_scope.

(** ** Python values *)

Module Py.

(** The exceptions that the modelled code can raise. [JSONDecodeError] is
    a subclass of [ValueError]; here [ValueError] stands for one that is not
    a [JSONDecodeError]. [ExternalError] is an exception raised inside an
    external collaborator (python-pptx, docx2pdf, PyPDF2) that is not one
    of the others. *)
Inductive exn : Type :=
| KeyError
| IndexError
| TypeError
| AttributeError
| JSONDecodeError
| ValueError
| RecursionError
| FileNotFoundError
| StreamlitAPIException
| RequestException (detail : string)
| ExternalError (detail : string).

Inductive result (A : Type) : Type :=
| Ok (a : A)
| Raise (e : exn).
Arguments Ok {A} a.
Arguments Raise {A} e.

Definition is_ok {A} (r : result A) : bool :=
  match r with Ok _ => true | Raise _ => false end.

(** A [float] read from a JSON text.  [FDec m e] is the literal whose
    exact value is [m * 10^e]; Python rounds it to binary64.  The script
    never computes with floats, it only tests their truth value. *)
Inductive pyfloat : Type :=
| FDec (m e : Z)
| FNaN
| FInf (negative : bool).

(** What [json.loads] can return; [PNone] is [None]. *)
Inductive value : Type :=
| PNone
| PBool (b : bool)
| PInt (z : Z)
| PFloat (f : pyfloat)
| PStr (s : string)
| PList (l : list value)
| PDict (kvs : list (string * value)).

(** [float(lit) != 0.0]: a literal rounds to zero exactly when its
    magnitude is at most [2^-1075], half the smallest subnormal. *)
Definition float_truthy (f : pyfloat) : bool :=
  match f with
  | FDec m e =>
      if (0 <=? e)%Z then negb (m =? 0)%Z
      else (10 ^ (- e) <? Z.abs m * 2 ^ 1075)%Z
  | FNaN => true
  | FInf _ => true
  end.

(** [bool(v)], the test of [if v:] and of [a or b]. *)
Definition truthy (v : value) : bool :=
  match v with
  | PNone => false
  | PBool b => b
  | PInt z => negb (z =? 0)%Z
  | PFloat f => float_truthy f
  | PStr s => negb (String.eqb s EmptyString)
  | PList l => match l with [] => false | _ => true end
  | PDict kvs => match kvs with [] => false | _ => true end
  end.

(** [a or b] on strings. *)
Definition str_or (a b : string) : string :=
  if truthy (PStr a) then a else b.

(** *** Dictionaries: insertion-ordered, one entry per key *)

Fixpoint dict_get (kvs : list (string * value)) (k : string) : option value :=
  match kvs with
  | [] => None
  | (k', v) :: rest => if String.eqb k' k then Some v else dict_get rest k
  end.

(** [d[k] = v]: a key already present keeps its position. *)
Fixpoint dict_set (kvs : list (string * value)) (k : string) (v : value)
  : list (string * value) :=
  match kvs with
  | [] => [(k, v)]
  | (k', v') :: rest =>
      if String.eqb k' k then (k', v) :: rest else (k', v') :: dict_set rest k v
  end.

(** [dict(pairs)] *)
Definition dict_of_pairs (pairs : list (string * value)) : list (string * value) :=
  fold_left (fun d kv => dict_set d (fst kv) (snd kv)) pairs [].

(** *** Code points of a [str] held as UTF-8 *)

Definition is_continuation (c : ascii) : bool :=
  let n := N_of_ascii c in ((128 <=? n) && (n <? 192))%N.

(** The string cut before every byte that starts a code point. *)
Fixpoint code_points (s : string) : list string :=
  match s with
  | EmptyString => []
  | String c rest =>
      match code_points rest with
      | [] => [String c EmptyString]
      | p :: ps =>
          match p with
          | String c' _ =>
              if is_continuation c' then String c p :: ps
              else String c EmptyString :: p :: ps
          | EmptyString => String c EmptyString :: ps
          end
      end
  end.

(** *** Subscription [v[k]] *)

(** A sequence index: negative indices count from the end. *)
Definition seq_index {A} (l : list A) (z : Z) : result A :=
  let n := Z.of_nat (length l) in
  let i := if (z <? 0)%Z then (z + n)%Z else z in
  if ((0 <=? i) && (i <? n))%Z then
    match nth_error l (Z.to_nat i) with
    | Some x => Ok x
    | None => Raise IndexError
    end
  else Raise IndexError.

(** [operator.index(k)]: [int] and [bool] are indices. *)
Definition as_index (k : value) : option Z :=
  match k with
  | PInt z => Some z
  | PBool b => Some (if b then 1%Z else 0%Z)
  | _ => None
  end.

Definition hashable (k : value) : bool :=
  match k with
  | PList _ | PDict _ => false
  | _ => true
  end.

Definition subscript (v k : value) : result value :=
  match v with
  | PDict kvs =>
      if hashable k then
        match k with
        | PStr s =>
            match dict_get kvs s with
            | Some x => Ok x
            | None => Raise KeyError
            end
        | _ => Raise KeyError   (* the keys of a decoded object are all [str] *)
        end
      else Raise TypeError
  | PList l =>
      match as_index k with
      | Some z => seq_index l z
      | None => Raise TypeError
      end
  | PStr s =>
      match as_index k with
      | Some z =>
          match seq_index (code_points s) z with
          | Ok c => Ok (PStr c)
          | Raise e => Raise e
          end
      | None => Raise TypeError
      end
  | PNone | PBool _ | PInt _ | PFloat _ => Raise TypeError
  end.

(** [iter(v)], as [enumerate(v)] and [for] consume it. *)
Definition iterate (v : value) : result (list value) :=
  match v with
  | PList l => Ok l
  | PDict kvs => Ok (map (fun kv => PStr (fst kv)) kvs)
  | PStr s => Ok (map PStr (code_points s))
  | PNone | PBool _ | PInt _ | PFloat _ => Raise TypeError
  end.

(** [list(v.keys())] *)
Definition keys (v : value) : result (list string) :=
  match v with
  | PDict kvs => Ok (map fst kvs)
  | _ => Raise AttributeError
  end.

(** [str.lower()] on a [str] of ASCII characters: the letters A to Z are
    lowered, every other character is kept. *)
Definition lower_char (c : ascii) : ascii :=
  let n := N_of_ascii c in
  if ((65 <=? n) && (n <=? 90))%N then ascii_of_N (n + 32) else c.

Fixpoint ascii_lower (s : string) : string :=
  match s with
  | EmptyString => EmptyString
  | String c rest => String (lower_char c) (ascii_lower rest)
  end.

(** [str.isascii()]: every byte of the UTF-8 form is below 128. *)
Fixpoint isascii (s : string) : bool :=
  match s with
  | EmptyString => true
  | String c rest => (N_of_ascii c <? 128)%N && isascii rest
  end.


End Py.

(** ** [json.loads]

    The decoder of the [json] module, in its default configuration: strict
    strings, the constants [NaN], [Infinity] and [-Infinity] accepted, the
    last of several equal keys kept.  Two limits of the interpreter cut the
    decoding short, each with an exception that is not a [JSONDecodeError]:

    - every object and every array that the scanner enters is one more
      recursive call, and only [room] of them fit under the recursion limit
      at the place of the call: one level more raises [RecursionError];
    - an [int] literal of more than [max_digits] digits raises [ValueError]
      ([sys.get_int_max_str_digits()]; 0 is no limit, the sign is not
      counted, a [float] literal has no such limit).

    The text is scanned from left to right, and the first failure met is
    the one raised. *)

Module Json.
Import Py.

(** The outcome of scanning a value at the head of a text: the value and
    the text after it; a [JSONDecodeError]; a [RecursionError]; the
    [ValueError] of an [int] with too many digits; or, in the model only,
    fuel that ran out. *)
Inductive scan (A : Type) : Type :=
| Scanned (a : A) (rest : string)
| Invalid
| TooDeep
| TooLong
| Starved.
Arguments Scanned {A} a rest.
Arguments Invalid {A}.
Arguments TooDeep {A}.
Arguments TooLong {A}.
Arguments Starved {A}.

Definition quote : ascii := "034"%char.
Definition backslash : ascii := "092"%char.

(** [WHITESPACE]: space, tab, line feed, carriage return. *)
Definition is_ws (c : ascii) : bool :=
  let n := N_of_ascii c in
  ((n =? 32) || (n =? 9) || (n =? 10) || (n =? 13))%N.

Fixpoint skip_ws (s : string) : string :=
  match s with
  | String c rest => if is_ws c then skip_ws rest else s
  | EmptyString => s
  end.

Definition is_digit (c : ascii) : bool :=
  let n := N_of_ascii c in ((48 <=? n) && (n <=? 57))%N.

Definition digit_val (c : ascii) : Z := Z.of_N (N_of_ascii c) - 48.

(** The longest run of digits at the head of [s]: its value when read after
    [acc], how many digits it has, and the text after it. *)
Fixpoint digits (s : string) (acc : Z) (n : nat) : Z * nat * string :=
  match s with
  | String c rest =>
      if is_digit c then digits rest (10 * acc + digit_val c)%Z (S n)
      else (acc, n, s)
  | EmptyString => (acc, n, s)
  end.

(** Group 1 of [NUMBER_RE] after the sign: a single 0, or a digit from 1
    to 9 and then any digits; with the number of its digits. *)
Definition int_part (s : string) : option (Z * nat * string) :=
  match s with
  | String c rest =>
      if Ascii.eqb c "0" then Some (0%Z, 1, rest)
      else if is_digit c then Some (digits rest (digit_val c) 1)
      else None
  | EmptyString => None
  end.

(** Group 2, a dot and at least one digit: the mantissa extended by the fraction digits and
    their number; [None] when the group does not match. *)
Definition frac_part (m : Z) (s : string) : option (Z * nat * string) :=
  match s with
  | String c rest =>
      if Ascii.eqb c "." then
        let '(m', n, rest') := digits rest m 0 in
        match n with O => None | S _ => Some (m', n, rest') end
      else None
  | EmptyString => None
  end.

(** Group 3: e or E, an optional sign, at least one digit. *)
Definition exp_part (s : string) : option (Z * string) :=
  match s with
  | String c rest =>
      if Ascii.eqb c "e" || Ascii.eqb c "E" then
        let '(neg, rest1) :=
          match rest with
          | String sg r =>
              if Ascii.eqb sg "-" then (true, r)
              else if Ascii.eqb sg "+" then (false, r)
              else (false, rest)
          | EmptyString => (false, rest)
          end in
        let '(v, n, rest') := digits rest1 0 0 in
        match n with
        | O => None
        | S _ => Some (if neg then (- v)%Z else v, rest')
        end
      else None
  | EmptyString => None
  end.

(** [int(text)] refuses a literal of [n] digits. *)
Definition over_limit (max_digits n : nat) : bool :=
  negb (Nat.eqb max_digits 0) && Nat.ltb max_digits n.

(** [match_number]: an [int] when neither fraction nor exponent is there,
    a [float] otherwise. [Invalid] here is no number at this place. *)
Definition scan_number (max_digits : nat) (s : string) : scan value :=
  let '(neg, s1) :=
    match s with
    | String c rest => if Ascii.eqb c "-" then (true, rest) else (false, s)
    | EmptyString => (false, s)
    end in
  match int_part s1 with
  | None => Invalid
  | Some (i, k, s2) =>
      let sign (z : Z) := if neg then (- z)%Z else z in
      match frac_part i s2 with
      | Some (m, n, s3) =>
          match exp_part s3 with
          | Some (e, s4) => Scanned (PFloat (FDec (sign m) (e - Z.of_nat n))) s4
          | None => Scanned (PFloat (FDec (sign m) (- Z.of_nat n))) s3
          end
      | None =>
          match exp_part s2 with
          | Some (e, s4) => Scanned (PFloat (FDec (sign i) e)) s4
          | None =>
              if over_limit max_digits k then TooLong
              else Scanned (PInt (sign i)) s2
          end
      end
  end.

(** *** Strings *)

Definition hex_val (c : ascii) : option N :=
  let n := N_of_ascii c in
  if ((48 <=? n) && (n <=? 57))%N then Some (n - 48)%N
  else if ((65 <=? n) && (n <=? 70))%N then Some (n - 55)%N
  else if ((97 <=? n) && (n <=? 102))%N then Some (n - 87)%N
  else None.

(** [_decode_uXXXX] *)
Definition hex4 (a b c d : ascii) : option N :=
  match hex_val a, hex_val b, hex_val c, hex_val d with
  | Some x, Some y, Some z, Some w => Some (((x * 16 + y) * 16 + z) * 16 + w)%N
  | _, _, _, _ => None
  end.

Definition byte (n : N) : ascii := ascii_of_N n.

(** [chr(n)], in UTF-8 (a lone surrogate takes three bytes). *)
Definition chr (n : N) : string :=
  if (n <? 128)%N then String (byte n) EmptyString
  else if (n <? 2048)%N then
    String (byte (192 + n / 64)) (String (byte (128 + n mod 64)) EmptyString)
  else if (n <? 65536)%N then
    String (byte (224 + n / 4096))
      (String (byte (128 + (n / 64) mod 64))
         (String (byte (128 + n mod 64)) EmptyString))
  else
    String (byte (240 + n / 262144))
      (String (byte (128 + (n / 4096) mod 64))
         (String (byte (128 + (n / 64) mod 64))
            (String (byte (128 + n mod 64)) EmptyString))).

(** The [BACKSLASH] table. *)
Definition unescape (c : ascii) : option ascii :=
  if Ascii.eqb c quote then Some quote
  else if Ascii.eqb c backslash then Some backslash
  else if Ascii.eqb c "/" then Some "/"%char
  else if Ascii.eqb c "b" then Some "008"%char
  else if Ascii.eqb c "f" then Some "012"%char
  else if Ascii.eqb c "n" then Some "010"%char
  else if Ascii.eqb c "r" then Some "013"%char
  else if Ascii.eqb c "t" then Some "009"%char
  else None.

Definition is_high_surrogate (n : N) : bool := ((55296 <=? n) && (n <=? 56319))%N.
Definition is_low_surrogate (n : N) : bool := ((56320 <=? n) && (n <=? 57343))%N.
Definition join_surrogates (hi lo : N) : N :=
  (65536 + ((hi - 55296) * 1024 + (lo - 56320)))%N.

Definition prepend (p : string) (r : option (string * string))
  : option (string * string) :=
  match r with
  | Some (s, rest) => Some (p ++ s, rest)
  | None => None
  end.

(** [scanstring(s, end, strict=True)], from just after the opening quote:
    the decoded string and the text after the closing quote. *)
Fixpoint scanstring (s : string) : option (string * string) :=
  match s with
  | EmptyString => None
  | String c r =>
      if Ascii.eqb c quote then Some (EmptyString, r)
      else if Ascii.eqb c backslash then
        match r with
        | EmptyString => None
        | String esc r1 =>
            if Ascii.eqb esc "u" then
              match r1 with
              | String h1 (String h2 (String h3 (String h4 r5))) =>
                  match hex4 h1 h2 h3 h4 with
                  | None => None
                  | Some uni =>
                      match r5 with
                      | String b (String u (String g1 (String g2 (String g3 (String g4 r11))))) =>
                          if is_high_surrogate uni && Ascii.eqb b backslash && Ascii.eqb u "u" then
                            match hex4 g1 g2 g3 g4 with
                            | None => None
                            | Some uni2 =>
                                if is_low_surrogate uni2
                                then prepend (chr (join_surrogates uni uni2)) (scanstring r11)
                                else prepend (chr uni) (scanstring r5)
                            end
                          else prepend (chr uni) (scanstring r5)
                      | _ => prepend (chr uni) (scanstring r5)
                      end
                  end
              | _ => None
              end
            else
              match unescape esc with
              | Some ch => prepend (String ch EmptyString) (scanstring r1)
              | None => None
              end
        end
      else if (N_of_ascii c <? 32)%N then None
      else prepend (String c EmptyString) (scanstring r)
  end.

Fixpoint starts_with (p s : string) : option string :=
  match p with
  | EmptyString => Some s
  | String a p' =>
      match s with
      | String b s' => if Ascii.eqb a b then starts_with p' s' else None
      | EmptyString => None
      end
  end.

(** *** Values
    [scan_once], [JSONArray] and [JSONObject] call each other; every call
    takes one unit of [fuel], every object or array entered one unit of
    [room]. [array_items] starts at an element, [object_items] just after
    the opening quote of a key. *)
Fixpoint scan_once (fuel room max_digits : nat) (s : string) {struct fuel}
  : scan value :=
  match fuel with
  | O => Starved
  | S fuel =>
      match s with
      | EmptyString => Invalid
      | String c r =>
          if Ascii.eqb c quote then
            match scanstring r with
            | Some (str, rest) => Scanned (PStr str) rest
            | None => Invalid
            end
          else if Ascii.eqb c "{" then
            match room with
            | O => TooDeep
            | S room =>
                let r' := skip_ws r in
                match r' with
                | String c' r'' =>
                    if Ascii.eqb c' "}" then Scanned (PDict []) r''
                    else if Ascii.eqb c' quote
                    then object_items fuel room max_digits r'' []
                    else Invalid
                | EmptyString => Invalid
                end
            end
          else if Ascii.eqb c "[" then
            match room with
            | O => TooDeep
            | S room =>
                let r' := skip_ws r in
                match r' with
                | String c' r'' =>
                    if Ascii.eqb c' "]" then Scanned (PList []) r''
                    else array_items fuel room max_digits r' []
                | EmptyString => Invalid
                end
            end
          else
            match starts_with "null" s, starts_with "true" s, starts_with "false" s with
            | Some rest, _, _ => Scanned PNone rest
            | None, Some rest, _ => Scanned (PBool true) rest
            | None, None, Some rest => Scanned (PBool false) rest
            | None, None, None =>
                match scan_number max_digits s with
                | Invalid =>
                    match starts_with "NaN" s, starts_with "Infinity" s,
                          starts_with "-Infinity" s with
                    | Some rest, _, _ => Scanned (PFloat FNaN) rest
                    | None, Some rest, _ => Scanned (PFloat (FInf false)) rest
                    | None, None, Some rest => Scanned (PFloat (FInf true)) rest
                    | None, None, None => Invalid
                    end
                | number => number
                end
            end
      end
  end
with array_items (fuel room max_digits : nat) (s : string) (acc : list value)
  {struct fuel} : scan value :=
  match fuel with
  | O => Starved
  | S fuel =>
      match scan_once fuel room max_digits s with
      | Scanned v rest =>
          match skip_ws rest with
          | String c r =>
              if Ascii.eqb c "]" then Scanned (PList (rev (v :: acc))) r
              else if Ascii.eqb c ","
              then array_items fuel room max_digits (skip_ws r) (v :: acc)
              else Invalid
          | EmptyString => Invalid
          end
      | failure => failure
      end
  end
with object_items (fuel room max_digits : nat) (s : string)
  (acc : list (string * value)) {struct fuel} : scan value :=
  match fuel with
  | O => Starved
  | S fuel =>
      match scanstring s with
      | None => Invalid
      | Some (key, rest) =>
          match skip_ws rest with
          | String c r =>
              if Ascii.eqb c ":" then
                match scan_once fuel room max_digits (skip_ws r) with
                | Scanned v rest' =>
                    match skip_ws rest' with
                    | String c' r' =>
                        if Ascii.eqb c' "}" then
                          Scanned (PDict (dict_of_pairs (rev ((key, v) :: acc)))) r'
                        else if Ascii.eqb c' "," then
                          match skip_ws r' with
                          | String q r'' =>
                              if Ascii.eqb q quote
                              then object_items fuel room max_digits r'' ((key, v) :: acc)
                              else Invalid
                          | EmptyString => Invalid
                          end
                        else Invalid
                    | EmptyString => Invalid
                    end
                | failure => failure
                end
              else Invalid
          | EmptyString => Invalid
          end
      end
  end.

(** Enough fuel for a text: a call is made only after the text has lost a
    character, except for the first element of an array. *)
Definition fuel_for (s : string) : nat := 2 * String.length s + 1.

(** [json.loads(s)] where [room] nested objects and arrays fit under the
    recursion limit and an [int] may have [max_digits] digits. A text that
    starts with a byte order mark is refused; nothing but whitespace may
    follow the value. With [fuel_for] the scan is never [Starved]
    ([JsonFacts.loads_fuel_suffices]). *)
Definition loads (room max_digits : nat) (s : string) : result value :=
  match starts_with (chr 65279) s with
  | Some _ => Raise JSONDecodeError
  | None =>
      let s' := skip_ws s in
      match scan_once (fuel_for s') room max_digits s' with
      | Scanned v rest =>
          match skip_ws rest with
          | EmptyString => Ok v
          | String _ _ => Raise JSONDecodeError
          end
      | Invalid => Raise JSONDecodeError
      | TooDeep => Raise RecursionError
      | TooLong => Raise ValueError
      | Starved => Raise RecursionError
      end
  end.

End Json.

(** ** Effects of a run of the script *)

Module Eff.
Import Py.

(** What [st.file_uploader] hands over. *)
Record uploaded_file : Type := {
  name : string;
  type : string;       (* the MIME type the browser declared *)
  getvalue : string    (* the bytes *)
}.

(** [st.session_state]. [quiz] is [None] or whatever [json.loads] gave;
    [user_answers] maps a question index to what [st.radio] returned for
    it: one of the option keys, or [None] when there were no options. *)
Record session_state : Type := {
  pdf_text : string;
  quiz : value;
  user_answers : gmap nat (option string);
  custom_prompt : string;
  summary : value
}.

(** Lines 10 to 20. *)
Definition initial_state : session_state := {|
  pdf_text := EmptyString;
  quiz := PNone;
  user_answers := ∅;
  custom_prompt := EmptyString;
  summary := PStr EmptyString
|}.

(** The JSON body of the request to the inference server, with its URL. *)
Record request : Type := {
  url : string;
  model : string;
  prompt : string;
  stream : bool
}.

(** [requests.post] returns a response or raises a [RequestException]
    [e] with [str(e) = detail]. *)
Inductive http_outcome : Type :=
| Response (status_code : Z) (text : string)
| Failure (detail : string).

(** What a run puts on the page. A message that interpolates a decoded
    value keeps the value instead of its rendering. *)
Inductive element : Type :=
| st_error (msg : string)
| st_success (msg : string)
| st_write (v : value)
| show_question (number : nat) (text : value)
| show_radio (number : nat) (options : list string)
| show_correct (number : nat)
| show_incorrect (number : nat) (correct_answer text : value)
| show_score (score total : nat).

Record world : Type := {
  session : session_state;
  page : list element;             (* oldest first *)
  sent : list request;             (* oldest first *)
  files : gmap string string       (* local files, by path *)
}.

(** The two places where the script calls [json.loads]: line 57, inside
    [query_ollama], and line 94, inside [generate_quiz]. *)
Inductive call_site : Type := in_query_ollama | in_generate_quiz.

(** The collaborators outside the script, and the interpreter. *)
Record env : Type := {
  (* requests.post(url, json=data) *)
  post : request -> http_outcome;
  (* the name tempfile picks for a new file with this suffix *)
  tempname : gmap string string -> string -> string;
  (* Presentation(path) then prs.save: the bytes written *)
  pptx_save : string -> result string;
  (* docx2pdf.convert: the bytes written *)
  docx_convert : string -> result string;
  (* PyPDF2.PdfReader(f).pages, each with what extract_text() gives *)
  pdf_pages : string -> result (list (result string));
  (* how many nested objects and arrays json.loads can enter, called at
     this place, before the recursion limit of the interpreter is met *)
  nesting_room : call_site -> nat;
  (* sys.get_int_max_str_digits(); 0 is no limit *)
  int_max_str_digits : nat;
  (* str.lower() on a str that has characters outside ASCII *)
  unicode_lower : string -> string
}.

(** What the widgets return during one run. [radio i ks] is what the
    radio of question [i], keyed [q{i}] and offered the options [ks],
    returns. In Streamlit that is the first option until the user selects
    one, then the selection, which is kept from run to run while the widget
    stays the same; here it is any function, an input of the run like the
    buttons. *)
Inductive artifact : Type := Quiz | Summary.

Record inputs : Type := {
  uploaded : option uploaded_file;
  process_clicked : bool;
  prompt_text : string;
  number_input : Z;
  content_type : artifact;
  generate_clicked : bool;
  radio : nat -> list string -> option string;
  check_clicked : bool
}.

(** A computation reads and changes the world and returns or raises; the
    world stays as it was when the exception left. *)
Definition M (A : Type) : Type := world -> result A * world.

Definition ret {A} (a : A) : M A := fun w => (Ok a, w).

Definition bind {A B} (m : M A) (f : A -> M B) : M B :=
  fun w =>
    match m w with
    | (Ok a, w') => f a w'
    | (Raise e, w') => (Raise e, w')
    end.

Definition lift {A} (r : result A) : M A := fun w => (r, w).

Definition raise {A} (e : exn) : M A := lift (Raise e).

(** [try: m except ...: handler e]; [handler e = None] when no clause
    matches [e]. *)
Definition try_except {A} (m : M A) (handler : exn -> option (M A)) : M A :=
  fun w =>
    match m w with
    | (Ok a, w') => (Ok a, w')
    | (Raise e, w') =>
        match handler e with
        | Some h => h w'
        | None => (Raise e, w')
        end
    end.

Declare Scope eff_scope.
Delimit Scope eff_scope with eff.
Notation "x <- m ;; k" := (bind m (fun x => k))
  (at level 100, m at next level, right associativity) : eff_scope.
Notation "m ;; k" := (bind m (fun _ => k))
  (at level 100, right associativity) : eff_scope.

(** Changes of one part of the world. *)
Definition on_session (f : session_state -> session_state) (w : world) : world :=
  {| session := f (session w); page := page w; sent := sent w; files := files w |}.
Definition on_page (f : list element -> list element) (w : world) : world :=
  {| session := session w; page := f (page w); sent := sent w; files := files w |}.
Definition on_sent (f : list request -> list request) (w : world) : world :=
  {| session := session w; page := page w; sent := f (sent w); files := files w |}.
Definition on_files (f : gmap string string -> gmap string string) (w : world)
  : world :=
  {| session := session w; page := page w; sent := sent w; files := f (files w) |}.

(** The world with [es] added at the end of the page. *)
Definition shown (es : list element) (w : world) : world :=
  on_page (fun p => (p ++ es)%list) w.

(** The world with [r] added to the requests sent. *)
Definition posted (r : request) (w : world) : world :=
  on_sent (fun l => (l ++ [r])%list) w.

Definition get_session : M session_state := fun w => (Ok (session w), w).

Definition set_session (f : session_state -> session_state) : M unit :=
  fun w => (Ok tt, on_session f w).

Definition show (e : element) : M unit := fun w => (Ok tt, shown [e] w).

Definition set_files (f : gmap string string -> gmap string string) : M unit :=
  fun w => (Ok tt, on_files f w).

Definition record_sent (r : request) : M unit := fun w => (Ok tt, posted r w).

(** Assignments to the fields of [st.session_state]. *)
Definition with_pdf_text (t : string) (s : session_state) : session_state :=
  {| pdf_text := t; quiz := quiz s; user_answers := user_answers s;
     custom_prompt := custom_prompt s; summary := summary s |}.
Definition with_quiz (q : value) (s : session_state) : session_state :=
  {| pdf_text := pdf_text s; quiz := q; user_answers := user_answers s;
     custom_prompt := custom_prompt s; summary := summary s |}.
Definition with_user_answers (a : gmap nat (option string)) (s : session_state)
  : session_state :=
  {| pdf_text := pdf_text s; quiz := quiz s; user_answers := a;
     custom_prompt := custom_prompt s; summary := summary s |}.
Definition with_custom_prompt (p : string) (s : session_state) : session_state :=
  {| pdf_text := pdf_text s; quiz := quiz s; user_answers := user_answers s;
     custom_prompt := p; summary := summary s |}.
Definition with_summary (v : value) (s : session_state) : session_state :=
  {| pdf_text := pdf_text s; quiz := quiz s; user_answers := user_answers s;
     custom_prompt := custom_prompt s; summary := v |}.


End Eff.

(** ** The script *)

Module App.
Import Py Eff.
Local Open Scope eff_scope.

Definition dq : string := String Json.quote EmptyString.
Definition nl : string := String "010"%char EmptyString.

(** [str(n)] for an [int]. *)
Definition str (n : Z) : string := pretty n.

(** *** [os.path.splitext] (POSIX) *)

(** [s.rfind(c)]: the index of the last [c], or -1; [i] is the index of the
    head of [s]. *)
Fixpoint rfind_from (i : Z) (c : ascii) (s : string) : Z :=
  match s with
  | EmptyString => (-1)%Z
  | String a rest =>
      let j := rfind_from (i + 1) c rest in
      if (0 <=? j)%Z then j else if Ascii.eqb a c then i else (-1)%Z
  end.

Definition rfind (c : ascii) (s : string) : Z := rfind_from 0 c s.

Fixpoint take_str (n : nat) (s : string) : string :=
  match n, s with
  | S n', String c rest => String c (take_str n' rest)
  | _, _ => EmptyString
  end.

Fixpoint drop_str (n : nat) (s : string) : string :=
  match n, s with
  | S n', String _ rest => drop_str n' rest
  | _, _ => s
  end.

(** The loop that skips leading dots: is there a character other than a
    dot among the [n] characters from [filenameIndex] on? *)
Fixpoint has_stem (p : string) (filenameIndex n : nat) : bool :=
  match n with
  | O => false
  | S n' =>
      match String.get filenameIndex p with
      | Some c =>
          if negb (Ascii.eqb c ".") then true
          else has_stem p (S filenameIndex) n'
      | None => true
      end
  end.

Definition splitext (p : string) : string * string :=
  let sepIndex := rfind "/" p in
  let dotIndex := rfind "." p in
  if (sepIndex <? dotIndex)%Z then
    let filenameIndex := (sepIndex + 1)%Z in
    if has_stem p (Z.to_nat filenameIndex) (Z.to_nat (dotIndex - filenameIndex))
    then (take_str (Z.to_nat dotIndex) p, drop_str (Z.to_nat dotIndex) p)
    else (p, EmptyString)
  else (p, EmptyString).

(** *** The prompts: the two f-strings, character for character *)

Definition quiz_task (context : string) (num_questions : Z) : string :=
  "Generate a quiz with " ++ str num_questions ++ " multiple-choice questions based on the given context: " ++ dq ++ context ++ dq ++ ". " ++ nl ++
  "    For each question, provide 4 options (A, B, C, D) and indicate the correct answer." ++ nl ++
  "    Ensure the questions are relevant to the topic: " ++ context ++ ". Also if the questions is for learning a language or grammar " ++ nl ++
  "    like 'take a quiz on present tense' or any other tense I expect you to prepare questions and options like this" ++ nl ++
  "    Do not include meta-level questions like 'What is the purpose of this quiz?'" ++ nl ++
  "    Format the output as a JSON string with the following structure:" ++ nl ++
  "    {" ++ nl ++
  "        " ++ dq ++ "questions" ++ dq ++ ": [" ++ nl ++
  "            {" ++ nl ++
  "                " ++ dq ++ "question" ++ dq ++ ": " ++ dq ++ "Question text here" ++ dq ++ "," ++ nl ++
  "                " ++ dq ++ "options" ++ dq ++ ": {" ++ nl ++
  "                    " ++ dq ++ "A" ++ dq ++ ": " ++ dq ++ "Option A text" ++ dq ++ "," ++ nl ++
  "                    " ++ dq ++ "B" ++ dq ++ ": " ++ dq ++ "Option B text" ++ dq ++ "," ++ nl ++
  "                    " ++ dq ++ "C" ++ dq ++ ": " ++ dq ++ "Option C text" ++ dq ++ "," ++ nl ++
  "                    " ++ dq ++ "D" ++ dq ++ ": " ++ dq ++ "Option D text" ++ dq ++ nl ++
  "                }," ++ nl ++
  "                " ++ dq ++ "correct_answer" ++ dq ++ ": " ++ dq ++ "Correct option letter" ++ dq ++ nl ++
  "            }," ++ nl ++
  "            ..." ++ nl ++
  "        ]" ++ nl ++
  "    }" ++ nl ++
  "    ".

Definition summary_task (context : string) : string :=
  "Summarize the following content: " ++ dq ++ context ++ dq ++ ". " ++ nl ++
  "    Provide a concise summary that captures the main points and key information." ++ nl ++
  "    ".

(** The two messages of [generate_quiz]. *)
Definition decode_failed : string :=
  "Failed to decode quiz response. The response is not in valid JSON format.".
Definition generation_failed : string :=
  "Failed to generate a valid quiz. Please check your network or try again.".

(** [user_answer == correct_answer], a [str] or [None] against a decoded
    value. *)
Definition answer_eq (user_answer : option string) (correct_answer : value) : bool :=
  match user_answer, correct_answer with
  | None, PNone => true
  | Some a, PStr c => String.eqb a c
  | _, _ => false
  end.

(** [user_answers.get(i)] *)
Definition answers_get (answers : gmap nat (option string)) (i : nat)
  : option string :=
  match answers !! i with
  | Some a => a
  | None => None
  end.

(** Lines 48 to 53: the URL and the body of the request. *)
Definition request_data (context task : string) : request := {|
  url := "http://localhost:11434/api/generate";
  model := "llama3.1";
  prompt := "Context: " ++ context ++ nl ++ nl ++ "Task: " ++ task ++ nl ++ nl ++ "Response:";
  stream := false
|}.

Section WithEnv.
Context (E : env).

(** [s.lower()] *)
Definition lower (s : string) : string :=
  if isascii s then ascii_lower s else unicode_lower E s.

(** [json.loads(s)], called at [site]. *)
Definition loads (site : call_site) (s : string) : result value :=
  Json.loads (nesting_room E site) (int_max_str_digits E) s.

(** *** Files *)

(** [tempfile.NamedTemporaryFile(delete=False, suffix=...)], written and
    closed. *)
Definition named_temporary_file (suffix content : string) : M string :=
  fun w =>
    let path := tempname E (files w) suffix in
    (Ok path, on_files (fun fs => <[path := content]> fs) w).

Definition read_file (path : string) : M string :=
  fun w =>
    match files w !! path with
    | Some content => (Ok content, w)
    | None => (Raise FileNotFoundError, w)
    end.

Definition os_rename (src dst : string) : M unit :=
  content <- read_file src ;;
  set_files (fun fs => <[dst := content]> (delete src fs)).

(** An external converter reads [src] and writes [dst], or raises. *)
Definition converted (converter : string -> result string) (src dst : string)
  : M unit :=
  content <- read_file src ;;
  out <- lift (converter content) ;;
  set_files (fun fs => <[dst := out]> fs).

(** Lines 22 to 38. *)
Definition convert_to_pdf (file : uploaded_file) : M string :=
  let file_extension := lower (snd (splitext (name file))) in
  temp_file_path <- named_temporary_file file_extension (getvalue file) ;;
  let pdf_path := temp_file_path ++ ".pdf" in
  (if String.eqb file_extension ".pptx" then
     converted (pptx_save E) temp_file_path pdf_path
   else if String.eqb file_extension ".docx" then
     converted (docx_convert E) temp_file_path pdf_path
   else
     os_rename temp_file_path pdf_path) ;;
  ret pdf_path.

(** [text += page.extract_text()] over the pages. *)
Fixpoint concat_pages (pages : list (result string)) (text : string)
  : result string :=
  match pages with
  | [] => Ok text
  | Ok t :: rest => concat_pages rest (text ++ t)
  | Raise e :: _ => Raise e
  end.

(** Lines 40 to 45. *)
Definition extract_text_from_pdf (pdf_file : string) : M string :=
  pages <- lift (pdf_pages E pdf_file) ;;
  lift (concat_pages pages EmptyString).

(** Lines 123 to 133. *)
Definition process_file (inp : inputs) : M unit :=
  match uploaded inp with
  | Some uploaded_file =>
      if process_clicked inp then
        pdf_file <-
          (if String.eqb (type uploaded_file) "application/pdf" then
             ret (getvalue uploaded_file)
           else
             pdf_path <- convert_to_pdf uploaded_file ;;
             read_file pdf_path) ;;
        text <- extract_text_from_pdf pdf_file ;;
        set_session (with_pdf_text text) ;;
        show (st_success "File uploaded and processed successfully!")
      else ret tt
  | None => ret tt
  end.

(** *** The inference client *)

Definition requests_post (data : request) : M (Z * string) :=
  record_sent data ;;
  match post E data with
  | Response status_code text => ret (status_code, text)
  | Failure detail => raise (RequestException detail)
  end.

(** [json.loads(v)] at [site]: only a [str] can be decoded. *)
Definition json_loads (site : call_site) (v : value) : M value :=
  match v with
  | PStr s => lift (loads site s)
  | _ => raise TypeError
  end.

(** Lines 47 to 63. *)
Definition query_ollama (context task : string) : M value :=
  let data := request_data context task in
  try_except
    (response <- requests_post data ;;
     let '(status_code, text) := response in
     if (status_code =? 200)%Z then
       body <- json_loads in_query_ollama (PStr text) ;;
       lift (subscript body (PStr "response"))
     else
       show (st_error ("API Error: " ++ str status_code ++ " - " ++ text)) ;;
       ret PNone)
    (fun e =>
       match e with
       | RequestException detail =>
           Some (show (st_error ("Connection Error: " ++ detail)) ;; ret PNone)
       | _ => None
       end).

(** Lines 92 to 101: what [generate_quiz] does with the reply. *)
Definition parse (response : value) : M value :=
  if truthy response then
    try_except
      (quiz <- json_loads in_generate_quiz response ;; ret quiz)
      (fun e =>
         match e with
         | JSONDecodeError =>
             Some (show (st_error decode_failed) ;; ret PNone)
         | _ => None
         end)
  else
    show (st_error generation_failed) ;;
    ret PNone.

(** Lines 65 to 101. *)
Definition generate_quiz (context : string) (num_questions : Z) : M value :=
  let task := quiz_task context num_questions in
  response <- query_ollama context task ;;
  parse response.

(** Lines 103 to 115. *)
Definition summarize_content (context : string) : M value :=
  let task := summary_task context in
  response <- query_ollama context task ;;
  if truthy response then ret response
  else
    show (st_error "Failed to generate a summary. Please check your network or try again.") ;;
    ret PNone.

(** *** The handlers *)

(** Lines 148 to 154, the button pressed. *)
Definition generate (inp : inputs) : M unit :=
  s <- get_session ;;
  let context := str_or (custom_prompt s) (pdf_text s) in
  match content_type inp with
  | Quiz =>
      q <- generate_quiz context (number_input inp) ;;
      set_session (with_quiz q) ;;
      set_session (with_user_answers ∅)
  | Summary =>
      v <- summarize_content context ;;
      set_session (with_summary v)
  end.

(** Lines 157 to 163: the form; [i] counts the questions from 0. *)
Fixpoint render_questions (inp : inputs) (i : nat) (questions : list value)
  : M unit :=
  match questions with
  | [] => ret tt
  | q :: rest =>
      text <- lift (subscript q (PStr "question")) ;;
      show (show_question (i + 1) text) ;;
      options <- lift (subscript q (PStr "options")) ;;
      ks <- lift (keys options) ;;
      show (show_radio (i + 1) ks) ;;
      let answer := radio inp i ks in
      set_session (fun s => with_user_answers (<[i := answer]> (user_answers s)) s) ;;
      render_questions inp (S i) rest
  end.

(** Lines 167 to 174: the body of the loop returns the new score. *)
Definition check_question (i : nat) (q : value) (score : nat) : M nat :=
  s <- get_session ;;
  let user_answer := answers_get (user_answers s) i in
  correct_answer <- lift (subscript q (PStr "correct_answer")) ;;
  if answer_eq user_answer correct_answer then
    show (show_correct (i + 1)) ;;
    ret (score + 1)
  else
    options <- lift (subscript q (PStr "options")) ;;
    text <- lift (subscript options correct_answer) ;;
    show (show_incorrect (i + 1) correct_answer text) ;;
    ret score.

Fixpoint check_loop (i : nat) (questions : list value) (score : nat) : M nat :=
  match questions with
  | [] => ret score
  | q :: rest =>
      score' <- check_question i q score ;;
      check_loop (S i) rest score'
  end.

(** [enumerate(st.session_state.quiz["questions"])] *)
Definition quiz_questions : M (list value) :=
  s <- get_session ;;
  questions <- lift (subscript (quiz s) (PStr "questions")) ;;
  lift (iterate questions).

(** Lines 165 to 175, the button pressed. [len] of what was iterated is
    the number of items it gave. *)
Definition check_answers : M unit :=
  questions <- quiz_questions ;;
  score <- check_loop 0 questions 0 ;;
  questions' <- quiz_questions ;;
  show (show_score score (length questions')).

(** Lines 156 to 179: the quiz form with its check button, and the
    summary. *)
Definition render (inp : inputs) : M unit :=
  s <- get_session ;;
  (if truthy (quiz s) then
     questions <- quiz_questions ;;
     render_questions inp 0 questions ;;
     if check_clicked inp then check_answers else ret tt
   else ret tt) ;;
  s <- get_session ;;
  if truthy (summary s) then show (st_write (summary s)) else ret tt.

(** Lines 123 to 179: one run, with what line 121 handed over in
    [uploaded inp]. *)
Definition script (inp : inputs) : M unit :=
  process_file inp ;;
  set_session (with_custom_prompt (prompt_text inp)) ;;
  s <- get_session ;;
  if truthy (PStr (pdf_text s)) || truthy (PStr (custom_prompt s)) then
    (if generate_clicked inp then generate inp else ret tt) ;;
    render inp
  else ret tt.




End WithEnv.

End App.

(** ** Notions used to state the properties *)

Module Notions.
Import Py Eff App.

(** A JSON text written with apostrophes in place of double quotes. *)
Fixpoint json_text (s : string) : string :=
  match s with
  | EmptyString => EmptyString
  | String c rest =>
      String (if Ascii.eqb c "'" then Json.quote else c) (json_text rest)
  end.

(** [needle] is a piece of [hay]. *)
Definition occurs (needle hay : string) : Prop :=
  exists before after, hay = before ++ needle ++ after.

(** The data model of a quiz: every question has a text, options under
    exactly the labels A, B, C and D, and a correct answer that is one of
    these labels. *)
Definition labels : list string := ["A"; "B"; "C"; "D"].

Definition is_label (s : string) : bool := existsb (String.eqb s) labels.

Definition is_text (o : option value) : bool :=
  match o with Some (PStr _) => true | _ => false end.

Definition four_options (q : value) : bool :=
  match q with
  | PDict kvs =>
      match dict_get kvs "options", dict_get kvs "correct_answer" with
      | Some (PDict options), Some (PStr c) =>
          is_text (dict_get kvs "question")
          && Nat.eqb (length options) 4
          && forallb (fun l => is_text (dict_get options l)) labels
          && is_label c
      | _, _ => false
      end
  | _ => false
  end.

Definition quiz_invariant (v : value) : bool :=
  match v with
  | PDict kvs =>
      match dict_get kvs "questions" with
      | Some (PList questions) => forallb four_options questions
      | _ => false
      end
  | _ => false
  end.

(** *** The quiz as the data model gives it

    A quiz is a list of questions; a question has a text, the text of one
    option under each of the labels A, B, C and D, and one of the labels as
    its correct answer. These notions are stated on their own terms, without
    the functions of the script. *)
Inductive label : Type := LA | LB | LC | LD.

Definition label_name (l : label) : string :=
  match l with LA => "A" | LB => "B" | LC => "C" | LD => "D" end.

Definition all_labels : list label := [LA; LB; LC; LD].

(** [listed] is the order in which the decoded object holds the labels. *)
Record question : Type := {
  stem : string;
  option_text : label -> string;
  correct : label;
  listed : list label
}.

(** The value under a key of a decoded object. *)
Definition field (kvs : list (string * value)) (k : string) : option value :=
  (list_to_map kvs : gmap string value) !! k.

(** [v] is the decoded form of the question [q]. *)
Definition question_of (v : value) (q : question) : Prop :=
  listed q ≡ₚ all_labels /\
  exists kvs,
    v = PDict kvs /\
    field kvs "question" = Some (PStr (stem q)) /\
    field kvs "options" =
      Some (PDict (map (fun l => (label_name l, PStr (option_text q l)))
                       (listed q))) /\
    field kvs "correct_answer" = Some (PStr (label_name (correct q))).

(** [v] is the decoded form of the quiz [qs]. *)
Definition quiz_of (v : value) (qs : list question) : Prop :=
  exists kvs items,
    v = PDict kvs /\
    field kvs "questions" = Some (PList items) /\
    Forall2 question_of items qs.

(** The sheet holds, for question [i], the label of its correct answer. *)
Definition entry_matches (answers : gmap nat (option string))
    (qs : list question) (i : nat) : bool :=
  match qs !! i with
  | Some q => bool_decide (answers !! i = Some (Some (label_name (correct q))))
  | None => false
  end.

(** The number of questions whose entry on the sheet matches. *)
Definition matching_entries (answers : gmap nat (option string))
    (qs : list question) : nat :=
  length (filter (fun i => entry_matches answers qs i = true)
                 (seq 0 (length qs))).

(** What the user is told about question [i]: that the answer is correct,
    or the label and the text of the correct option. *)
Definition feedback_on (answers : gmap nat (option string))
    (qs : list question) (i : nat) (q : question) : element :=
  if entry_matches answers qs i then show_correct (i + 1)
  else show_incorrect (i + 1) (PStr (label_name (correct q)))
                      (PStr (option_text q (correct q))).

(** Is the entry of the sheet for question [i] the correct answer of that
    question? *)
Definition answered_correctly (answers : gmap nat (option string))
    (questions : list value) (i : nat) : bool :=
  match questions !! i with
  | Some q =>
      match subscript q (PStr "correct_answer") with
      | Ok c => answer_eq (answers_get answers i) c
      | Raise _ => false
      end
  | None => false
  end.

(** The number of indices below [length questions] answered correctly. *)
Definition correct_count (answers : gmap nat (option string))
    (questions : list value) : nat :=
  length (filter (fun i => answered_correctly answers questions i = true)
                 (seq 0 (length questions))).

(** The correct answer of a question is a key of its options: both
    subscriptions of [q['options'][q['correct_answer']]] are defined. *)
Definition answer_among_options (q : value) : Prop :=
  exists correct_answer options text,
    subscript q (PStr "correct_answer") = Ok correct_answer /\
    subscript q (PStr "options") = Ok options /\
    subscript options correct_answer = Ok text.

(** The context of a generation: [custom_prompt or pdf_text]. *)
Definition context_of (s : session_state) : string :=
  str_or (custom_prompt s) (pdf_text s).

(** The task that goes with the kind of content asked for. *)
Definition task_for (kind : artifact) (context : string) (n : Z) : string :=
  match kind with
  | Quiz => quiz_task context n
  | Summary => summary_task context
  end.


(** A reply that is JSON but has two options and a correct answer that is
    none of them. *)
Definition two_option_reply : string :=
  json_text "{'questions': [{'question': 'Q1', 'options': {'A': 'x', 'B': 'y'}, 'correct_answer': 'E'}]}".

(** What the check shows for question [i]: that it is correct, or that it
    is not, with the correct answer and the text [options[correct_answer]]. *)
Inductive verdict (answers : gmap nat (option string)) (i : nat) (q : value)
  : element -> Prop :=
| verdict_correct correct_answer :
    subscript q (PStr "correct_answer") = Ok correct_answer ->
    answer_eq (answers_get answers i) correct_answer = true ->
    verdict answers i q (show_correct (i + 1))
| verdict_incorrect correct_answer options text :
    subscript q (PStr "correct_answer") = Ok correct_answer ->
    answer_eq (answers_get answers i) correct_answer = false ->
    subscript q (PStr "options") = Ok options ->
    subscript options correct_answer = Ok text ->
    verdict answers i q (show_incorrect (i + 1) correct_answer text).

(** The quiz of the testable properties: one question, correct answer B. *)
Definition one_question_reply : string :=
  json_text "{'questions':[{'question':'Q1','options':{'A':'x','B':'y','C':'z','D':'w'},'correct_answer':'B'}]}".



(** An upload named as a PDF that the browser typed otherwise. *)
Definition scan_pdf : uploaded_file :=
  {| name := "scan.PDF"; type := "application/x-pdf"; getvalue := "%PDF-hello" |}.

(** The world with another answer sheet. *)
Definition forget (answers : gmap nat (option string)) (w : world) : world :=
  on_session (with_user_answers answers) w.

(** [m] neither reads nor writes [user_answers]. *)
Definition blind {A} (m : M A) : Prop :=
  forall answers w,
    m (forget answers w) = (fst (m w), forget answers (snd (m w))).

(** A session that has just started, and collaborators for the examples:
    the server gives [reply] to every request, both converters refuse their
    input, and the reader refuses what does not start with the PDF header
    and finds one page, with the rest as its text, in what does. The
    interpreter has its default limit of 4300 digits and room for 990
    nested arrays; the names of the examples are in ASCII. *)
Definition fresh_world : world :=
  {| session := initial_state; page := []; sent := []; files := ∅ |}.

Definition example_env (reply : http_outcome) : env := {|
  post := fun _ => reply;
  tempname := fun _ suffix => "/tmp/tmpk3v9x2" ++ suffix;
  pptx_save := fun _ => Raise (ExternalError "PackageNotFoundError");
  docx_convert := fun _ => Raise (ExternalError "NotImplementedError");
  pdf_pages := fun bytes =>
    match Json.starts_with "%PDF-" bytes with
    | Some rest => Ok [Ok rest]
    | None => Raise (ExternalError "PdfReadError")
    end;
  nesting_room := fun _ => 990;
  int_max_str_digits := 4300;
  unicode_lower := fun s => s
|}.

(** What [one_question_reply] decodes to, and a session that holds it with
    a given answer sheet. *)
Definition one_question : value :=
  PDict [("question", PStr "Q1");
         ("options", PDict [("A", PStr "x"); ("B", PStr "y");
                            ("C", PStr "z"); ("D", PStr "w")]);
         ("correct_answer", PStr "B")].

Definition one_question_quiz : value :=
  PDict [("questions", PList [one_question])].

Definition quiz_world (answers : gmap nat (option string)) : world :=
  on_session (with_user_answers answers)
    (on_session (with_quiz one_question_quiz) fresh_world).

(** The same question in the data model. *)
Definition question_one : question :=
  {| stem := "Q1";
     option_text := fun l =>
       match l with LA => "x" | LB => "y" | LC => "z" | LD => "w" end;
     correct := LB;
     listed := all_labels |}.

(** Collaborators for the examples in which no server is reached. *)
Definition offline : env := example_env (Failure "Connection refused").

(** A document of two pages, the first with the text Hello and the second
    with the text World, and collaborators whose reader finds them. *)
Definition two_pages : string :=
  "%PDF-1.4" ++ nl ++
  "1 0 obj" ++ nl ++
  "<< /Type /Catalog /Pages 2 0 R >>" ++ nl ++
  "endobj" ++ nl ++
  "2 0 obj" ++ nl ++
  "<< /Type /Pages /Kids [3 0 R 5 0 R] /Count 2 >>" ++ nl ++
  "endobj" ++ nl ++
  "3 0 obj" ++ nl ++
  "<< /Type /Page /Parent 2 0 R /MediaBox [0 0 200 200] /Resources << /Font << /F1 7 0 R >> >> /Contents 4 0 R >>" ++ nl ++
  "endobj" ++ nl ++
  "4 0 obj" ++ nl ++
  "<< /Length 26 >>" ++ nl ++
  "stream" ++ nl ++
  "BT /F1 12 Tf (Hello) Tj ET" ++ nl ++
  "endstream" ++ nl ++
  "endobj" ++ nl ++
  "5 0 obj" ++ nl ++
  "<< /Type /Page /Parent 2 0 R /MediaBox [0 0 200 200] /Resources << /Font << /F1 7 0 R >> >> /Contents 6 0 R >>" ++ nl ++
  "endobj" ++ nl ++
  "6 0 obj" ++ nl ++
  "<< /Length 26 >>" ++ nl ++
  "stream" ++ nl ++
  "BT /F1 12 Tf (World) Tj ET" ++ nl ++
  "endstream" ++ nl ++
  "endobj" ++ nl ++
  "7 0 obj" ++ nl ++
  "<< /Type /Font /Subtype /Type1 /BaseFont /Helvetica >>" ++ nl ++
  "endobj" ++ nl ++
  "xref" ++ nl ++
  "0 8" ++ nl ++
  "0000000000 65535 f " ++ nl ++
  "0000000009 00000 n " ++ nl ++
  "0000000058 00000 n " ++ nl ++
  "0000000121 00000 n " ++ nl ++
  "0000000247 00000 n " ++ nl ++
  "0000000323 00000 n " ++ nl ++
  "0000000449 00000 n " ++ nl ++
  "0000000525 00000 n " ++ nl ++
  "trailer" ++ nl ++
  "<< /Size 8 /Root 1 0 R >>" ++ nl ++
  "startxref" ++ nl ++
  "595" ++ nl ++
  "%%EOF" ++ nl.

Definition reading_two_pages : env := {|
  post := post offline;
  tempname := tempname offline;
  pptx_save := pptx_save offline;
  docx_convert := docx_convert offline;
  pdf_pages := fun bytes =>
    if String.eqb bytes two_pages then Ok [Ok "Hello"; Ok "World"]
    else pdf_pages offline bytes;
  nesting_room := nesting_room offline;
  int_max_str_digits := int_max_str_digits offline;
  unicode_lower := unicode_lower offline
|}.

(** A second quiz: another question, with the same four options as the
    question of [one_question_quiz]; as the server sends it and as it is
    decoded. *)
Definition second_reply : string :=
  json_text "{'response': '{\'questions\':[{\'question\':\'Q2\',\'options\':{\'A\':\'x\',\'B\':\'y\',\'C\':\'z\',\'D\':\'w\'},\'correct_answer\':\'B\'}]}'}".

Definition second_quiz : value :=
  PDict [("questions",
          PList [PDict [("question", PStr "Q2");
                        ("options", PDict [("A", PStr "x"); ("B", PStr "y");
                                           ("C", PStr "z"); ("D", PStr "w")]);
                        ("correct_answer", PStr "B")]])].

(** Two runs with "past tense" in the prompt box, one with the Generate
    button pressed and one with the Check Answers button pressed. In both
    the radio returns B, which is what the user selected while the first
    quiz was on the page: from one run to the next Streamlit keeps the value
    of a widget that stays the same, and the radio of question 0 does, with
    its key [q0], its label and its options the same for both quizzes. *)
Definition press_generate : inputs :=
  {| uploaded := None; process_clicked := false;
     prompt_text := "past tense"; number_input := 1;
     content_type := Quiz; generate_clicked := true;
     radio := fun _ _ => Some "B"; check_clicked := false |}.

Definition press_check : inputs :=
  {| uploaded := None; process_clicked := false;
     prompt_text := "past tense"; number_input := 1;
     content_type := Quiz; generate_clicked := false;
     radio := fun _ _ => Some "B"; check_clicked := true |}.

(** The world at the start of the next run: the page is drawn anew. *)
Definition next_run (w : world) : world := on_page (fun _ => []) w.

(** [n] opening brackets: a text nested [n] deep. *)
Fixpoint brackets (n : nat) : string :=
  match n with
  | O => EmptyString
  | S n => String "[" (brackets n)
  end.

End Notions.

(** ** Notions for the properties of the handlers *)

Module Frames.
Import Py Eff App Notions.
Local Open Scope list_scope.

(** The page texts put end to end, in order and with nothing between. *)
Definition join_texts (texts : list string) : string :=
  fold_right String.append EmptyString texts.

(** [m] leaves every world in relation [R] with the world it ends in,
    whether it returns or raises. *)
Definition keeps (R : world -> world -> Prop) {A} (m : M A) : Prop :=
  forall w, R w (snd (m w)).

(** What a relation between worlds lets change. *)
Definition allows_page (R : world -> world -> Prop) : Prop :=
  forall f w, R w (on_page f w).
Definition allows_sent (R : world -> world -> Prop) : Prop :=
  forall f w, R w (on_sent f w).
Definition allows_files (R : world -> world -> Prop) : Prop :=
  forall f w, R w (on_files f w).
Definition allows_session (R : world -> world -> Prop)
    (f : session_state -> session_state) : Prop :=
  forall w, R w (on_session f w).

(** No request has been sent. *)
Definition same_sent (w w' : world) : Prop := sent w' = sent w.

(** The document text and the custom prompt are the same. *)
Definition same_sources (w w' : world) : Prop :=
  pdf_text (session w') = pdf_text (session w) /\
  custom_prompt (session w') = custom_prompt (session w).

(** The quiz and the answer sheet are the same. *)
Definition same_quiz (w w' : world) : Prop :=
  quiz (session w') = quiz (session w) /\
  user_answers (session w') = user_answers (session w).

(** The summary is the same. *)
Definition same_summary (w w' : world) : Prop :=
  summary (session w') = summary (session w).

(** A question that the form can show: it has a text and its options are
    a dictionary. *)
Definition renderable (q : value) : Prop :=
  exists text options ks,
    subscript q (PStr "question") = Ok text /\
    subscript q (PStr "options") = Ok options /\
    keys options = Ok ks.

(** [list(q['options'].keys())], empty when it is not defined. *)
Definition option_keys (q : value) : list string :=
  match subscript q (PStr "options") with
  | Ok options =>
      match keys options with
      | Ok ks => ks
      | Raise _ => []
      end
  | Raise _ => []
  end.

(** The radio of question [i], offered the labels in the order of the
    decoded object, returns the label of the correct answer. *)
Definition selection_matches (inp : inputs) (qs : list question) (i : nat)
  : bool :=
  match qs !! i with
  | Some q =>
      bool_decide (radio inp i (map label_name (listed q))
                   = Some (label_name (correct q)))
  | None => false
  end.

(** The number of questions whose selection in this run matches. *)
Definition matching_selections (inp : inputs) (qs : list question) : nat :=
  length (filter (fun i => selection_matches inp qs i = true)
                 (seq 0 (length qs))).

(** Only the local files differ. *)
Definition only_files (w w' : world) : Prop :=
  session w' = session w /\ page w' = page w /\ sent w' = sent w.

(** Lines 126 to 132 up to the assignment: the bytes to read, then their
    text. *)
Definition load_text (E : env) (uploaded_file : uploaded_file) : M string :=
  bind (if String.eqb (type uploaded_file) "application/pdf" then
          ret (getvalue uploaded_file)
        else
          bind (convert_to_pdf E uploaded_file) (fun pdf_path => read_file pdf_path))
       (fun pdf_file => extract_text_from_pdf E pdf_file).

(** The extension that [convert_to_pdf] looks at. *)
Definition extension (E : env) (file : uploaded_file) : string :=
  lower E (snd (splitext (name file))).

(** How a summary can fail: the request does not get through, the server
    answers with another status than 200, or the generated value is empty
    or otherwise false. *)
Inductive summary_fails (E : env) (context : string) : Prop :=
| summary_connection_fails detail :
    post E (request_data context (summary_task context)) = Failure detail ->
    summary_fails E context
| summary_server_fails status text :
    post E (request_data context (summary_task context)) = Response status text ->
    status <> 200%Z ->
    summary_fails E context
| summary_reply_empty text body reply :
    post E (request_data context (summary_task context)) = Response 200 text ->
    loads E in_query_ollama text = Ok body ->
    subscript body (PStr "response") = Ok reply ->
    truthy reply = false ->
    summary_fails E context.

(** A reply with status 200 from which [query_ollama] cannot take the
    [response] field, because [json.loads] raises or because the
    subscription does: the exception that leaves it. *)
Definition reply_unreadable (E : env) (text : string) (e : exn) : Prop :=
  match loads E in_query_ollama text with
  | Raise x => e = x
  | Ok body => subscript body (PStr "response") = Raise e
  end.

(** The success message of the upload handler. *)
Definition processed : string := "File uploaded and processed successfully!".

(** The message of a failed summary. *)
Definition summary_failed : string :=
  "Failed to generate a summary. Please check your network or try again.".

(** The same upload declared as a PDF. *)
Definition as_pdf (file : uploaded_file) : uploaded_file :=
  {| name := name file; type := "application/pdf"; getvalue := getvalue file |}.

Definition with_upload (file : uploaded_file) (inp : inputs) : inputs :=
  {| uploaded := Some file; process_clicked := process_clicked inp;
     prompt_text := prompt_text inp; number_input := number_input inp;
     content_type := content_type inp; generate_clicked := generate_clicked inp;
     radio := radio inp; check_clicked := check_clicked inp |}.

(** Inputs of a run in which nothing is uploaded or pressed. *)
Definition idle (prompt_text : string) : inputs :=
  {| uploaded := None; process_clicked := false; prompt_text := prompt_text;
     number_input := 5; content_type := Quiz; generate_clicked := false;
     radio := fun _ ks => hd_error ks; check_clicked := false |}.

End Frames.

(** * Properties *)

(** ** The decoder never runs out of fuel *)

Module JsonFacts.
Import Py Json.

Lemma skip_ws_length s : String.length (skip_ws s) <= String.length s.
Proof.
  induction s as [|c s IH]; simpl; [lia|].
  destruct (is_ws c); simpl; lia.
Qed.

Lemma skip_ws_cons s c r :
  skip_ws s = String c r -> String.length r < String.length s.
Proof.
  intros H. pose proof (skip_ws_length s) as L. rewrite H in L. simpl in L. lia.
Qed.

Lemma starts_with_length p s r :
  starts_with p s = Some r -> String.length s = String.length p + String.length r.
Proof.
  revert s; induction p as [|a p IH]; intros s H; simpl in *.
  - by inversion H.
  - destruct s as [|b s]; [done|].
    destruct (Ascii.eqb a b); [|done]. simpl. by rewrite (IH _ H).
Qed.

Lemma digits_length s acc n v k r :
  digits s acc n = (v, k, r) -> String.length r <= String.length s.
Proof.
  revert acc n; induction s as [|c s IH]; intros acc n H; simpl in *.
  - inversion H; subst; simpl; lia.
  - destruct (is_digit c).
    + apply IH in H. lia.
    + inversion H; subst; simpl; lia.
Qed.

Lemma int_part_length s v k r :
  int_part s = Some (v, k, r) -> String.length r < String.length s.
Proof.
  destruct s as [|c s]; simpl; [done|].
  destruct (Ascii.eqb c "0").
  - intros [= <- <- <-]. lia.
  - destruct (is_digit c); [|done].
    intros [= D]. apply digits_length in D. lia.
Qed.

Lemma frac_part_length m s v k r :
  frac_part m s = Some (v, k, r) -> String.length r < String.length s.
Proof.
  destruct s as [|c s]; simpl; [done|].
  destruct (Ascii.eqb c "."); [|done].
  destruct (digits s m 0) as [[v' k'] r'] eqn:D.
  destruct k'; [done|]. intros [= <- <- <-]. apply digits_length in D. lia.
Qed.

Lemma exp_part_length s v r :
  exp_part s = Some (v, r) -> String.length r < String.length s.
Proof.
  destruct s as [|c s]; simpl; [done|].
  destruct (Ascii.eqb c "e" || Ascii.eqb c "E"); [|done].
  assert (forall rest1 (f : Z -> Z), String.length rest1 <= String.length s ->
            (let '(v0, n, rest') := digits rest1 0 0 in
             match n with
             | O => None
             | S _ => Some (f v0, rest')
             end) = Some (v, r) -> String.length r < S (String.length s)) as K.
  { intros rest1 f L. destruct (digits rest1 0 0) as [[v' k'] r'] eqn:D.
    destruct k'; [done|]. intros [= <- <-]. apply digits_length in D. lia. }
  destruct s as [|sg s']; [done|].
  destruct (Ascii.eqb sg "-");
    [apply (K s' (fun z => (- z)%Z)); simpl; lia|].
  destruct (Ascii.eqb sg "+"); apply (K _ (fun z => z)); simpl; lia.
Qed.

Lemma scan_number_length max_digits s v r :
  scan_number max_digits s = Scanned v r -> String.length r < String.length s.
Proof.
  unfold scan_number.
  set (p := match s with
            | String c rest => if Ascii.eqb c "-" then (true, rest) else (false, s)
            | EmptyString => (false, s)
            end).
  assert (String.length (snd p) <= String.length s) as L.
  { subst p. destruct s as [|c s]; simpl; [lia|].
    destruct (Ascii.eqb c "-"); simpl; lia. }
  destruct p as [neg s1]; simpl in L.
  destruct (int_part s1) as [[[i k] s2]|] eqn:I; [|done].
  apply int_part_length in I.
  destruct (frac_part i s2) as [[[m n] s3]|] eqn:F.
  - apply frac_part_length in F.
    destruct (exp_part s3) as [[e s4]|] eqn:X.
    + apply exp_part_length in X. intros [= <- <-]. lia.
    + intros [= <- <-]. lia.
  - destruct (exp_part s2) as [[e s4]|] eqn:X.
    + apply exp_part_length in X. intros [= <- <-]. lia.
    + destruct (over_limit max_digits k); [done|]. intros [= <- <-]. lia.
Qed.

Lemma scan_number_settles max_digits s : scan_number max_digits s <> Starved.
Proof.
  unfold scan_number.
  destruct (match s with
            | String c rest => if Ascii.eqb c "-" then (true, rest) else (false, s)
            | EmptyString => (false, s)
            end) as [neg s1].
  repeat case_match; done.
Qed.

Lemma prepend_some p o s r :
  prepend p o = Some (s, r) -> exists s', o = Some (s', r).
Proof. destruct o as [[s' r']|]; simpl; [|done]. intros [= <- <-]. eauto. Qed.

Lemma scanstring_length s x r :
  scanstring s = Some (x, r) -> String.length r < String.length s.
Proof.
  remember (String.length s) as n eqn:Hn.
  revert s x r Hn. induction (lt_wf n) as [n _ IH]. intros s x r -> H.
  assert (forall s' x' r', String.length s' < String.length s ->
            scanstring s' = Some (x', r') -> String.length r' < String.length s) as K.
  { intros s' x' r' L H'. pose proof (IH _ L _ _ _ eq_refl H'). lia. }
  assert (forall p s' x' r', String.length s' < String.length s ->
            prepend p (scanstring s') = Some (x', r') ->
            String.length r' < String.length s) as P.
  { intros p s' x' r' L H'. apply prepend_some in H' as [? H']. eauto. }
  clear IH. destruct s as [|c s]; simpl in H; [done|].
  destruct (Ascii.eqb c quote); [inversion H; subst; simpl; lia|].
  destruct (Ascii.eqb c backslash).
  - destruct s as [|esc r1]; [done|].
    destruct (Ascii.eqb esc "u").
    + destruct r1 as [|h1 [|h2 [|h3 [|h4 r5]]]]; try done.
      destruct (hex4 h1 h2 h3 h4) as [uni|]; [|done].
      destruct r5 as [|b [|u [|g1 [|g2 [|g3 [|g4 r11]]]]]];
        try (eapply P; [|exact H]; simpl; lia).
      destruct (is_high_surrogate uni && Ascii.eqb b backslash && Ascii.eqb u "u").
      * destruct (hex4 g1 g2 g3 g4) as [uni2|]; [|done].
        destruct (is_low_surrogate uni2); (eapply P; [|exact H]; simpl; lia).
      * eapply P; [|exact H]; simpl; lia.
    + destruct (unescape esc); [|done]. eapply P; [|exact H]; simpl; lia.
  - destruct (N_of_ascii c <? 32)%N; [done|]. eapply P; [|exact H]; simpl; lia.
Qed.

(** A scan that has enough fuel ends, and what it leaves is shorter. *)
Definition settles (s : string) (r : scan value) : Prop :=
  r <> Starved /\
  forall v rest, r = Scanned v rest -> String.length rest < String.length s.

Lemma settles_invalid s : settles s Invalid.
Proof. split; [done|]. intros; discriminate. Qed.

Lemma settles_too_deep s : settles s TooDeep.
Proof. split; [done|]. intros; discriminate. Qed.

Lemma settles_too_long s : settles s TooLong.
Proof. split; [done|]. intros; discriminate. Qed.

Lemma settles_scanned s v rest :
  String.length rest < String.length s -> settles s (Scanned v rest).
Proof. intros L; split; [done|]. by intros ? ? [= <- <-]. Qed.

Lemma settles_shorter s s' r :
  String.length s' <= String.length s -> settles s' r -> settles s r.
Proof.
  intros L [H1 H2]; split; [done|]. intros v rest E. specialize (H2 _ _ E). lia.
Qed.

#[local] Hint Resolve settles_invalid settles_too_deep settles_too_long : core.

Ltac measure :=
  repeat match goal with
    | H : skip_ws _ = String _ _ |- _ => apply skip_ws_cons in H
    | H : scanstring _ = Some _ |- _ => apply scanstring_length in H
    | H : starts_with _ _ = Some _ |- _ => apply starts_with_length in H
    | H : scan_number _ _ = Scanned _ _ |- _ => apply scan_number_length in H
    end;
  cbn [String.length] in *; try lia.

Lemma scan_fuel max_digits fuel :
  (forall room s, 2 * String.length s + 1 <= fuel ->
     settles s (scan_once fuel room max_digits s)) /\
  (forall room s acc, 2 * String.length s + 2 <= fuel ->
     settles s (array_items fuel room max_digits s acc)) /\
  (forall room s acc, 2 * String.length s + 2 <= fuel ->
     settles (String quote s) (object_items fuel room max_digits s acc)).
Proof.
  induction fuel as [|fuel (IHv & IHa & IHo)].
  { repeat split; intros; lia. }
  split; [|split].
  - intros room s L. destruct s as [|c r]; [done|].
    cbn [scan_once]. destruct (Ascii.eqb c quote).
    { destruct (scanstring r) as [[str rest]|] eqn:S; [|done].
      apply settles_scanned. measure. }
    destruct (Ascii.eqb c "{").
    { destruct room as [|room]; [done|].
      destruct (skip_ws r) as [|c' r''] eqn:W; [done|].
      destruct (Ascii.eqb c' "}"); [apply settles_scanned; measure|].
      destruct (Ascii.eqb c' quote); [|done].
      eapply settles_shorter; [|apply IHo]; measure. }
    destruct (Ascii.eqb c "[").
    { destruct room as [|room]; [done|].
      destruct (skip_ws r) as [|c' r''] eqn:W; [done|].
      destruct (Ascii.eqb c' "]"); [apply settles_scanned; measure|].
      rewrite <- W. pose proof (skip_ws_length r).
      eapply settles_shorter; [|apply IHa]; measure. }
    pose proof (scan_number_settles max_digits (String c r)).
    repeat case_match; try done; apply settles_scanned; measure.
  - intros room s acc L. cbn [array_items].
    destruct (IHv room s ltac:(lia)) as [NS Sh].
    destruct (scan_once fuel room max_digits s) as [v rest| | | |] eqn:V;
      [|done..].
    specialize (Sh _ _ eq_refl).
    destruct (skip_ws rest) as [|c r] eqn:W; [done|].
    destruct (Ascii.eqb c "]"); [apply settles_scanned; measure|].
    destruct (Ascii.eqb c ","); [|done].
    pose proof (skip_ws_length r).
    eapply settles_shorter; [|apply IHa]; measure.
  - intros room s acc L. cbn [object_items].
    destruct (scanstring s) as [[key rest]|] eqn:K; [|done].
    destruct (skip_ws rest) as [|c r] eqn:W; [done|].
    destruct (Ascii.eqb c ":"); [|done].
    pose proof (skip_ws_length r) as Lr.
    assert (String.length r < String.length s) as Ls by measure.
    destruct (IHv room (skip_ws r) ltac:(lia)) as [NS Sh].
    destruct (scan_once fuel room max_digits (skip_ws r)) as [v rest'| | | |] eqn:V;
      [|done..].
    specialize (Sh _ _ eq_refl).
    destruct (skip_ws rest') as [|c' r'] eqn:W'; [done|].
    destruct (Ascii.eqb c' "}"); [apply settles_scanned; measure|].
    destruct (Ascii.eqb c' ","); [|done].
    destruct (skip_ws r') as [|q r''] eqn:W''; [done|].
    destruct (Ascii.eqb q quote); [|done].
    eapply settles_shorter; [|apply IHo]; measure.
Qed.

(** The scan that [loads] starts never runs out of fuel: what [loads]
    raises is what the decoder raises. *)
Lemma loads_fuel_suffices room max_digits s :
  scan_once (fuel_for (skip_ws s)) room max_digits (skip_ws s) <> Starved.
Proof.
  destruct (scan_fuel max_digits (fuel_for (skip_ws s))) as [H _].
  apply H. unfold fuel_for. lia.
Qed.

(** What [loads] raises. *)
Lemma loads_raises room max_digits s e :
  loads room max_digits s = Raise e ->
  e = JSONDecodeError \/ e = RecursionError \/ e = ValueError.
Proof.
  unfold loads. repeat case_match; intros [= <-]; auto.
Qed.

End JsonFacts.

(** ** Strings *)

Module StringFacts.

Lemma append_cons (x : ascii) (a b : string) :
  String x a ++ b = String x (a ++ b).
Proof. reflexivity. Qed.

Lemma append_nil (b : string) : EmptyString ++ b = b.
Proof. reflexivity. Qed.

Lemma append_assoc (a b c : string) : (a ++ b) ++ c = a ++ (b ++ c).
Proof.
  induction a as [|x a IH]; [done|]. rewrite !append_cons. by f_equal.
Qed.

Lemma append_length (a b : string) :
  String.length (a ++ b) = String.length a + String.length b.
Proof.
  induction a as [|x a IH]; [done|]. rewrite append_cons. simpl. by rewrite IH.
Qed.

Lemma append_cancel_r (a b c : string) : a ++ c = b ++ c -> a = b.
Proof.
  revert b; induction a as [|x a IH]; intros [|y b] H;
    rewrite ?append_cons, ?append_nil in H.
  - done.
  - apply (f_equal String.length) in H. simpl in H. rewrite append_length in H. lia.
  - apply (f_equal String.length) in H. simpl in H. rewrite append_length in H. lia.
  - injection H as -> H. by rewrite (IH _ H).
Qed.


End StringFacts.

(** ** The prompt *)

Module PromptFacts.
Import Py Eff App Notions StringFacts.

(** C8. For every context and every number [n] of questions, the quiz
    prompt starts by asking for a quiz with [n] multiple-choice questions
    ([n] in decimal, so 5 questions when [n] is 5, and a different number
    gives a different prompt), tells the model to give 4 options A, B, C, D
    for each question and to indicate the correct answer, and forbids
    meta-level questions. *)
Theorem quiz_task_requests_n_questions (context : string) (n : Z) :
  (exists rest,
     quiz_task context n =
       "Generate a quiz with " ++ str n ++ " multiple-choice questions" ++ rest) /\
  (exists rest,
     quiz_task context 5 =
       "Generate a quiz with 5 multiple-choice questions" ++ rest) /\
  (forall m, quiz_task context m = quiz_task context n -> m = n) /\
  occurs "For each question, provide 4 options (A, B, C, D) and indicate the correct answer."
    (quiz_task context n) /\
  occurs "Do not include meta-level questions like 'What is the purpose of this quiz?'"
    (quiz_task context n).
Proof.
  split; [|split; [|split; [|split]]].
  - unfold quiz_task. eexists. reflexivity.
  - unfold quiz_task. eexists. reflexivity.
  - intros m H. unfold quiz_task in H.
    apply String.app_inj in H. apply append_cancel_r in H.
    by apply (inj pretty) in H.
  - unfold occurs, quiz_task.
    exists ("Generate a quiz with " ++ str n
            ++ " multiple-choice questions based on the given context: "
            ++ dq ++ context ++ dq ++ ". " ++ nl ++ "    ").
    eexists. rewrite !append_assoc. reflexivity.
  - unfold occurs, quiz_task.
    exists ("Generate a quiz with " ++ str n
            ++ " multiple-choice questions based on the given context: "
            ++ dq ++ context ++ dq ++ ". " ++ nl
            ++ "    For each question, provide 4 options (A, B, C, D) and indicate the correct answer." ++ nl
            ++ "    Ensure the questions are relevant to the topic: " ++ context
            ++ ". Also if the questions is for learning a language or grammar " ++ nl
            ++ "    like 'take a quiz on present tense' or any other tense I expect you to prepare questions and options like this" ++ nl
            ++ "    ").
    eexists. rewrite !append_assoc. reflexivity.
Qed.

Lemma quiz_task_requests_n_questions_witness :
  (exists rest,
     quiz_task "past tense" 5 =
       "Generate a quiz with 5 multiple-choice questions" ++ rest) /\
  (quiz_task "past tense" 5 = quiz_task "past tense" 5 -> 5%Z = 5%Z).
Proof.
  split.
  - apply (proj1 (proj2 (quiz_task_requests_n_questions "past tense" 5))).
  - apply (proj1 (proj2 (proj2 (quiz_task_requests_n_questions "past tense" 5)))).
Defined.

End PromptFacts.

(** ** Running computations *)

Module EffFacts.
Import Py Eff.

(** Something shown is on the page: the world is not the same. *)
Lemma shown_neq es w : es <> [] -> shown es w <> w.
Proof.
  intros Hes H. apply (f_equal page) in H. simpl in H.
  apply Hes. apply (app_inv_head (page w)). by rewrite app_nil_r.
Qed.

Lemma shown_shown es1 es2 w : shown es2 (shown es1 w) = shown (es1 ++ es2) w.
Proof. unfold shown, on_page. simpl. by rewrite app_assoc. Qed.

Lemma shown_nil w : shown [] w = w.
Proof. destruct w. unfold shown, on_page. simpl. by rewrite app_nil_r. Qed.

(** What [subscript] raises. *)
Lemma subscript_exn v k e :
  subscript v k = Raise e -> e = KeyError \/ e = IndexError \/ e = TypeError.
Proof.
  assert (forall A (l : list A) z x, seq_index l z = Raise x -> x = IndexError) as S.
  { intros A l z x. unfold seq_index. repeat case_match; congruence. }
  destruct v; simpl; try (intros [= <-]; auto).
  - destruct (as_index k); [|intros [= <-]; auto].
    destruct (seq_index (code_points s) z) eqn:Q; [done|].
    intros [= <-]. apply S in Q. auto.
  - destruct (as_index k); [|intros [= <-]; auto].
    intros Q. apply S in Q. auto.
  - destruct (hashable k); [|intros [= <-]; auto].
    repeat case_match; intros [= <-]; auto.
Qed.

End EffFacts.

(** ** The quiz parser *)

Module ParseFacts.
Import Py Eff App Notions EffFacts.

#[local] Arguments Json.loads : simpl never.
#[local] Arguments loads : simpl never.

(** What [parse] does with a reply that is a [str]. *)
Lemma parse_str E reply w :
  parse E (PStr reply) w =
    if String.eqb reply EmptyString
    then (Ok PNone, shown [st_error generation_failed] w)
    else match loads E in_generate_quiz reply with
         | Ok quiz => (Ok quiz, w)
         | Raise JSONDecodeError => (Ok PNone, shown [st_error decode_failed] w)
         | Raise e => (Raise e, w)
         end.
Proof.
  unfold parse. simpl. destruct (String.eqb reply EmptyString); simpl; [done|].
  unfold try_except, bind, lift. simpl.
  destruct (loads E in_generate_quiz reply) as [quiz|e]; [done|].
  by destruct e.
Qed.

(** C1 (as stated, refuted). The reply [two_option_reply] is decoded and
    returned as the quiz, with nothing reported, although its only question
    has two options and a correct answer outside them. *)
Lemma parse_accepts_two_options :
  exists quiz,
    parse offline (PStr two_option_reply) fresh_world = (Ok quiz, fresh_world) /\
    truthy quiz = true /\
    quiz_invariant quiz = false.
Proof.
  eexists. split; [vm_compute; reflexivity|]. split; vm_compute; reflexivity.
Qed.

(** C1 (amended). For every raw response string, [parse] returns a value
    and reports nothing exactly when the string is not empty and
    [json.loads], within the limits of the interpreter, decodes it; the
    value is what [json.loads] decoded: no field or option is checked. *)
Theorem parse_returns_what_loads_decodes E (reply : string) (w : world)
    (quiz : value) :
  parse E (PStr reply) w = (Ok quiz, w) <->
  reply <> EmptyString /\ loads E in_generate_quiz reply = Ok quiz.
Proof.
  rewrite parse_str. destruct (String.eqb_spec reply EmptyString) as [->|Hne].
  - split; [|by intros [? _]].
    intros [= _ H]. by apply shown_neq in H.
  - destruct (loads E in_generate_quiz reply) as [v|e].
    + split; [by intros [= ->]|by intros [_ [= ->]]].
    + split; [|by intros [_ ?]].
      destruct e; try done. intros [= _ H]. by apply shown_neq in H.
Qed.

(** C5 (as stated, refuted). [json.loads] rejects the empty string, but
    [parse] does not report it as a reply that cannot be decoded: it reports
    that the generation failed. *)
Lemma parse_empty_reply_not_decode_failure :
  loads offline in_generate_quiz EmptyString = Raise JSONDecodeError /\
  parse offline (PStr EmptyString) fresh_world
    = (Ok PNone, shown [st_error generation_failed] fresh_world) /\
  parse offline (PStr EmptyString) fresh_world
    <> (Ok PNone, shown [st_error decode_failed] fresh_world).
Proof.
  split; [reflexivity|]. split; [reflexivity|].
  rewrite parse_str. simpl. intros [=].
Qed.

(** C5 (amended). For every string that [json.loads] does not decode,
    [parse] gives no quiz. When the string is empty it returns [None] and
    reports that the generation failed. When [json.loads] rejects a string
    that is not empty with [JSONDecodeError], it returns [None] and reports
    that the reply cannot be decoded. When [json.loads] raises another
    exception ([RecursionError] for a text nested beyond the recursion
    limit, [ValueError] for an integer with more digits than the
    interpreter converts) that exception leaves [parse], and nothing is
    reported. *)
Theorem parse_invalid_reply_gives_no_quiz E (reply : string) (w : world)
    (e : exn) :
  loads E in_generate_quiz reply = Raise e ->
  parse E (PStr reply) w =
    if String.eqb reply EmptyString
    then (Ok PNone, shown [st_error generation_failed] w)
    else match e with
         | JSONDecodeError => (Ok PNone, shown [st_error decode_failed] w)
         | _ => (Raise e, w)
         end.
Proof. intros H. by rewrite parse_str, H. Qed.

Lemma parse_invalid_reply_gives_no_quiz_witness :
  parse offline (PStr "{not json") fresh_world =
    (Ok PNone, shown [st_error decode_failed] fresh_world) /\
  parse offline (PStr (brackets 991)) fresh_world =
    (Raise RecursionError, fresh_world).
Proof.
  split.
  - apply (parse_invalid_reply_gives_no_quiz offline "{not json" fresh_world
             JSONDecodeError).
    vm_compute. reflexivity.
  - apply (parse_invalid_reply_gives_no_quiz offline (brackets 991) fresh_world
             RecursionError).
    vm_compute. reflexivity.
Defined.

End ParseFacts.

(** ** The inference client *)

Module InferFacts.
Import Py Eff App Notions EffFacts.

#[local] Arguments Json.loads : simpl never.
#[local] Arguments loads : simpl never.
#[local] Arguments subscript : simpl never.
#[local] Arguments request_data : simpl never.
#[local] Arguments String.eqb : simpl never.

(** One call of [query_ollama], outcome by outcome of the request. *)
Lemma query_ollama_run E context task w :
  query_ollama E context task w =
    let data := request_data context task in
    match post E data with
    | Response status_code text =>
        if (status_code =? 200)%Z then
          match loads E in_query_ollama text with
          | Ok body => (subscript body (PStr "response"), posted data w)
          | Raise e => (Raise e, posted data w)
          end
        else
          (Ok PNone,
           shown [st_error ("API Error: " ++ str status_code ++ " - " ++ text)]
             (posted data w))
    | Failure detail =>
        (Ok PNone,
         shown [st_error ("Connection Error: " ++ detail)] (posted data w))
    end.
Proof.
  unfold query_ollama, try_except, bind, requests_post, record_sent. simpl.
  destruct (post E (request_data context task)) as [status_code text|detail];
    simpl; [|done].
  destruct (status_code =? 200)%Z; simpl; [|done].
  unfold lift. destruct (loads E in_query_ollama text) as [body|e] eqn:L; simpl.
  - destruct (subscript body (PStr "response")) as [v|e] eqn:S; [done|].
    by destruct (subscript_exn _ _ _ S) as [->|[->| ->]].
  - by destruct (JsonFacts.loads_raises _ _ _ _ L) as [->|[->| ->]].
Qed.

(** C7 (as stated, refuted). The server answers 201, a success status,
    with a body that has a [response] field: [query_ollama] returns [None]
    and reports an API error. *)
Lemma query_ollama_rejects_201 :
  query_ollama (example_env (Response 201 (json_text "{'response': 'hi'}")))
    "ctx" "task" fresh_world
  = (Ok PNone,
     shown [st_error ("API Error: 201 - " ++ json_text "{'response': 'hi'}")]
       (posted (request_data "ctx" "task") fresh_world)).
Proof. vm_compute. reflexivity. Qed.

(** C7 (amended). For every prompt: when the status is 200 and the body
    is a JSON text with a [response] field, [query_ollama] returns that
    field as it is; for every other status, 2xx or not, it reports an API
    error with the status and the body and returns [None]; when the request
    raises, it reports a connection error with the detail and returns
    [None]. It returns a value without reporting anything only in the
    first case. *)
Theorem query_ollama_outcomes E (context task : string) (w : world) :
  let data := request_data context task in
  (forall text body v,
     post E data = Response 200 text ->
     loads E in_query_ollama text = Ok body ->
     subscript body (PStr "response") = Ok v ->
     query_ollama E context task w = (Ok v, posted data w)) /\
  (forall status_code text,
     post E data = Response status_code text ->
     status_code <> 200%Z ->
     query_ollama E context task w =
       (Ok PNone,
        shown [st_error ("API Error: " ++ str status_code ++ " - " ++ text)]
          (posted data w))) /\
  (forall detail,
     post E data = Failure detail ->
     query_ollama E context task w =
       (Ok PNone,
        shown [st_error ("Connection Error: " ++ detail)] (posted data w))) /\
  (forall v w',
     query_ollama E context task w = (Ok v, w') ->
     page w' = page w ->
     exists text body,
       post E data = Response 200 text /\
       loads E in_query_ollama text = Ok body /\
       subscript body (PStr "response") = Ok v).
Proof.
  intros data. subst data. rewrite query_ollama_run. cbv zeta.
  split; [|split; [|split]].
  - intros text body v -> L S. simpl. by rewrite L, S.
  - intros status_code text -> Hne.
    by destruct (Z.eqb_spec status_code 200).
  - by intros detail ->.
  - intros v w'.
    destruct (post E (request_data context task)) as [status_code text|detail].
    + destruct (Z.eqb_spec status_code 200) as [->|Hne].
      * destruct (loads E in_query_ollama text) as [body|e] eqn:L; [|done].
        intros [= S _] _. by exists text, body.
      * intros [= _ <-] P. simpl in P.
        apply (f_equal length) in P. rewrite length_app in P. simpl in P. lia.
    + intros [= _ <-] P. simpl in P.
      apply (f_equal length) in P. rewrite length_app in P. simpl in P. lia.
Qed.

Lemma query_ollama_outcomes_witness :
  query_ollama (example_env (Response 200 (json_text "{'response': 'hi'}")))
    "ctx" "task" fresh_world
  = (Ok (PStr "hi"), posted (request_data "ctx" "task") fresh_world) /\
  query_ollama (example_env (Response 500 "overloaded")) "ctx" "task" fresh_world
  = (Ok PNone,
     shown [st_error ("API Error: " ++ str 500 ++ " - " ++ "overloaded")]
       (posted (request_data "ctx" "task") fresh_world)) /\
  query_ollama (example_env (Failure "Connection refused")) "ctx" "task" fresh_world
  = (Ok PNone,
     shown [st_error ("Connection Error: " ++ "Connection refused")]
       (posted (request_data "ctx" "task") fresh_world)).
Proof.
  split; [|split].
  - apply (proj1 (query_ollama_outcomes
                    (example_env (Response 200 (json_text "{'response': 'hi'}")))
                    "ctx" "task" fresh_world)
             (json_text "{'response': 'hi'}")
             (PDict [("response", PStr "hi")]) (PStr "hi"));
      vm_compute; reflexivity.
  - apply (proj1 (proj2 (query_ollama_outcomes
                           (example_env (Response 500 "overloaded"))
                           "ctx" "task" fresh_world)) 500%Z "overloaded");
      [reflexivity|lia].
  - apply (proj1 (proj2 (proj2 (query_ollama_outcomes
                                  (example_env (Failure "Connection refused"))
                                  "ctx" "task" fresh_world)))
             "Connection refused").
    reflexivity.
Defined.

End InferFacts.

(** ** Computations that do not look at the answer sheet *)

Module BlindFacts.
Import Py Eff App Notions EffFacts.

Lemma blind_ret {A} (a : A) : blind (ret a).
Proof. done. Qed.

Lemma blind_lift {A} (r : result A) : blind (lift r).
Proof. done. Qed.

Lemma blind_raise {A} (e : exn) : blind (@raise A e).
Proof. done. Qed.

Lemma blind_show e : blind (show e).
Proof. done. Qed.

Lemma blind_record_sent r : blind (record_sent r).
Proof. done. Qed.

Lemma blind_set_files f : blind (set_files f).
Proof. done. Qed.

Lemma blind_bind {A B} (m : M A) (f : A -> M B) :
  blind m -> (forall a, blind (f a)) -> blind (bind m f).
Proof.
  intros Hm Hf answers w. unfold bind. rewrite Hm.
  destruct (m w) as [[a|e] w1]; simpl; [apply Hf|done].
Qed.

Lemma blind_try_except {A} (m : M A) handler :
  blind m -> (forall e h, handler e = Some h -> blind h) ->
  blind (try_except m handler).
Proof.
  intros Hm Hh answers w. unfold try_except. rewrite Hm.
  destruct (m w) as [[a|e] w1]; simpl; [done|].
  destruct (handler e) as [h|] eqn:Q; [by apply (Hh e)|done].
Qed.

Lemma blind_set_pdf_text t : blind (set_session (with_pdf_text t)).
Proof. done. Qed.

Lemma blind_set_custom_prompt p : blind (set_session (with_custom_prompt p)).
Proof. done. Qed.

Lemma blind_set_summary v : blind (set_session (with_summary v)).
Proof. done. Qed.

Lemma blind_read_file path : blind (read_file path).
Proof. intros answers w. unfold read_file. simpl. by destruct (files w !! path). Qed.

Lemma blind_named_temporary_file E suffix content :
  blind (named_temporary_file E suffix content).
Proof. done. Qed.

Create HintDb blind.
#[local] Hint Resolve blind_ret blind_lift blind_raise blind_show blind_record_sent
  blind_set_files blind_set_pdf_text blind_set_custom_prompt blind_set_summary
  blind_read_file blind_named_temporary_file : blind.

Ltac blindly :=
  repeat first
    [ solve [auto with blind]
    | apply blind_bind; [|intros]
    | apply blind_try_except; [|intros ? ? ?]
    | case_match; simplify_eq ].

Lemma blind_convert_to_pdf E file : blind (convert_to_pdf E file).
Proof. unfold convert_to_pdf, converted, os_rename. blindly. Qed.

Lemma blind_process_file E inp : blind (process_file E inp).
Proof.
  unfold process_file, extract_text_from_pdf.
  pose proof (blind_convert_to_pdf E). blindly.
Qed.

Lemma blind_json_loads E site v : blind (json_loads E site v).
Proof. unfold json_loads. blindly. Qed.

Lemma blind_query_ollama E context task : blind (query_ollama E context task).
Proof.
  unfold query_ollama, requests_post. pose proof (blind_json_loads E). blindly.
Qed.

Lemma blind_parse E response : blind (parse E response).
Proof. unfold parse. pose proof (blind_json_loads E). blindly. Qed.

Lemma blind_generate_quiz E context n : blind (generate_quiz E context n).
Proof.
  unfold generate_quiz. cbv zeta.
  pose proof (blind_query_ollama E). pose proof (blind_parse E). blindly.
Qed.

End BlindFacts.

(** ** The generation handler *)

Module GenerateFacts.
Import Py Eff App Notions EffFacts ParseFacts InferFacts BlindFacts.

#[local] Arguments Json.loads : simpl never.
#[local] Arguments loads : simpl never.
#[local] Arguments subscript : simpl never.
#[local] Arguments request_data : simpl never.
#[local] Arguments quiz_task : simpl never.
#[local] Arguments summary_task : simpl never.
#[local] Arguments str_or : simpl never.

Lemma generate_quiz_run E context n w :
  generate_quiz E context n w =
    match query_ollama E context (quiz_task context n) w with
    | (Ok response, w1) => parse E response w1
    | (Raise e, w1) => (Raise e, w1)
    end.
Proof. reflexivity. Qed.

Lemma generate_run_quiz E inp w :
  content_type inp = Quiz ->
  generate E inp w =
    match generate_quiz E (context_of (session w)) (number_input inp) w with
    | (Ok q, w1) =>
        (Ok tt, on_session (with_user_answers ∅) (on_session (with_quiz q) w1))
    | (Raise e, w1) => (Raise e, w1)
    end.
Proof.
  intros Q. unfold generate, bind, get_session, context_of. rewrite Q.
  by destruct (generate_quiz E _ _ w) as [[q|e] w1].
Qed.

Lemma generate_run_summary E inp w :
  content_type inp = Summary ->
  generate E inp w =
    match summarize_content E (context_of (session w)) w with
    | (Ok v, w1) => (Ok tt, on_session (with_summary v) w1)
    | (Raise e, w1) => (Raise e, w1)
    end.
Proof.
  intros Q. unfold generate, bind, get_session, context_of. rewrite Q.
  by destruct (summarize_content E _ w) as [[q|e] w1].
Qed.

(** *** Requests sent *)

Lemma query_ollama_sent E context task w :
  sent (snd (query_ollama E context task w))
  = (sent w ++ [request_data context task])%list.
Proof. rewrite query_ollama_run. cbv zeta. by repeat case_match. Qed.

Lemma parse_sent E response w : sent (snd (parse E response w)) = sent w.
Proof.
  unfold parse, try_except, bind, json_loads, raise, lift, show, ret.
  by repeat case_match; simplify_eq/=.
Qed.

Lemma generate_quiz_sent E context n w :
  sent (snd (generate_quiz E context n w))
  = (sent w ++ [request_data context (quiz_task context n)])%list.
Proof.
  rewrite generate_quiz_run.
  pose proof (query_ollama_sent E context (quiz_task context n) w) as S.
  destruct (query_ollama E context (quiz_task context n) w) as [[r|e] w1];
    simpl in S; [|done].
  by rewrite parse_sent.
Qed.

Lemma summarize_content_sent E context w :
  sent (snd (summarize_content E context w))
  = (sent w ++ [request_data context (summary_task context)])%list.
Proof.
  unfold summarize_content, bind. cbv zeta.
  pose proof (query_ollama_sent E context (summary_task context) w) as S.
  destruct (query_ollama E context (summary_task context) w) as [[r|e] w1];
    simpl in S; [|done].
  by destruct (truthy r).
Qed.

Lemma generate_sent E inp w :
  sent (snd (generate E inp w))
  = (sent w ++ [request_data (context_of (session w))
                 (task_for (content_type inp) (context_of (session w))
                    (number_input inp))])%list.
Proof.
  destruct (content_type inp) eqn:Q.
  - rewrite (generate_run_quiz _ _ _ Q).
    pose proof (generate_quiz_sent E (context_of (session w)) (number_input inp) w) as S.
    by destruct (generate_quiz E _ _ w) as [[q|e] w1].
  - rewrite (generate_run_summary _ _ _ Q).
    pose proof (summarize_content_sent E (context_of (session w)) w) as S.
    by destruct (summarize_content E _ w) as [[q|e] w1].
Qed.

Lemma str_or_nonempty a b : a <> EmptyString -> str_or a b = a.
Proof.
  intros H. unfold str_or. simpl. by destruct (String.eqb_spec a EmptyString).
Qed.

Lemma str_or_empty b : str_or EmptyString b = b.
Proof. reflexivity. Qed.

(** C4. On every generation action, exactly one request is sent; when the
    custom prompt is not empty (whatever the document text, so also when
    both are there), its context and its task are made from the custom
    prompt, and they are made from the document text only when the custom
    prompt is empty. *)
Theorem generate_context_is_custom_prompt E (inp : inputs) (w : world) :
  (custom_prompt (session w) <> EmptyString ->
   str_or (custom_prompt (session w)) (pdf_text (session w))
     = custom_prompt (session w) /\
   sent (snd (generate E inp w))
     = (sent w ++ [request_data (custom_prompt (session w))
                    (task_for (content_type inp) (custom_prompt (session w))
                       (number_input inp))])%list) /\
  (custom_prompt (session w) = EmptyString ->
   sent (snd (generate E inp w))
     = (sent w ++ [request_data (pdf_text (session w))
                    (task_for (content_type inp) (pdf_text (session w))
                       (number_input inp))])%list).
Proof.
  split; intros H; rewrite generate_sent; unfold context_of.
  - by rewrite (str_or_nonempty _ _ H).
  - by rewrite H, str_or_empty.
Qed.

Lemma generate_context_is_custom_prompt_witness :
  let w := on_session (with_custom_prompt "past tense")
             (on_session (with_pdf_text "Chapter 1") fresh_world) in
  let inp := {| uploaded := None; process_clicked := false;
                prompt_text := "past tense"; number_input := 3;
                content_type := Quiz; generate_clicked := true;
                radio := fun _ _ => None; check_clicked := false |} in
  sent (snd (generate (example_env (Failure "Connection refused")) inp w))
  = [request_data "past tense" (quiz_task "past tense" 3)].
Proof.
  intros w inp.
  apply (proj1 (generate_context_is_custom_prompt
                  (example_env (Failure "Connection refused")) inp w)).
  discriminate.
Defined.




(** *** A new quiz and the old answers *)

Lemma script_run E inp w :
  script E inp w =
    match process_file E inp w with
    | (Ok _, w1) =>
        let w2 := on_session (with_custom_prompt (prompt_text inp)) w1 in
        if truthy (PStr (pdf_text (session w2)))
           || truthy (PStr (custom_prompt (session w2)))
        then
          match (if generate_clicked inp then generate E inp else ret tt) w2 with
          | (Ok _, w3) => render inp w3
          | (Raise e, w3) => (Raise e, w3)
          end
        else (Ok tt, w2)
    | (Raise e, w1) => (Raise e, w1)
    end.
Proof.
  unfold script. unfold bind at 1.
  destruct (process_file E inp w) as [[[]|e] w1]; [|done].
  unfold bind at 1. unfold set_session at 1. unfold bind at 1, get_session at 1.
  cbv zeta. by destruct (_ || _).
Qed.

(** With a Quiz asked for, the handler ends in the same world whatever the
    answer sheet was, unless an exception leaves it. *)
Lemma generate_forgets E inp answers w :
  content_type inp = Quiz ->
  generate E inp (forget answers w) = generate E inp w \/
  exists e w1,
    generate E inp w = (Raise e, w1) /\
    generate E inp (forget answers w) = (Raise e, forget answers w1).
Proof.
  intros Q. rewrite !(generate_run_quiz _ _ _ Q).
  change (context_of (session (forget answers w))) with (context_of (session w)).
  pose proof (blind_generate_quiz E (context_of (session w)) (number_input inp)
                answers w) as B.
  destruct (generate_quiz E _ _ w) as [[q|e] w1]; simpl in B; rewrite B.
  - by left.
  - right. by exists e, w1.
Qed.

(** X19. When the generation handler ends with a quiz installed, the
    answer sheet is empty in the same world, before the form records
    anything; and in a run where a quiz is generated, the result of the run
    and the page it shows are the same whatever the answer sheet held
    before. What the form then records comes from the widgets alone. *)
Theorem new_quiz_resets_answers E (inp : inputs) (w : world) :
  content_type inp = Quiz ->
  (forall w',
     generate E inp w = (Ok tt, w') ->
     user_answers (session w') = ∅ /\
     (forall i, answers_get (user_answers (session w')) i = None) /\
     exists w1,
       generate_quiz E (context_of (session w)) (number_input inp) w
         = (Ok (quiz (session w')), w1)) /\
  (generate_clicked inp = true ->
   forall answers,
     fst (script E inp (forget answers w)) = fst (script E inp w) /\
     page (snd (script E inp (forget answers w))) = page (snd (script E inp w))).
Proof.
  intros Q. split.
  - intros w'. rewrite (generate_run_quiz _ _ _ Q).
    destruct (generate_quiz E _ _ w) as [[q|e] w1]; [|done].
    intros [= <-]. simpl. split; [done|]. split; [done|]. by exists w1.
  - intros G answers. rewrite !script_run, G, blind_process_file.
    destruct (process_file E inp w) as [[[]|e] w1]; [|done].
    cbv zeta. cbn [fst snd].
    change (on_session (with_custom_prompt (prompt_text inp)) (forget answers w1))
      with (forget answers (on_session (with_custom_prompt (prompt_text inp)) w1)).
    set (w2 := on_session (with_custom_prompt (prompt_text inp)) w1).
    change (session (forget answers w2))
      with (with_user_answers answers (session w2)).
    cbn [pdf_text custom_prompt with_user_answers].
    destruct (_ || _); [|done].
    destruct (generate_forgets E inp answers w2 Q) as [->|(e & w3 & -> & ->)]; done.
Qed.

Lemma new_quiz_resets_answers_witness :
  let reply := json_text "{'response': '{\'questions\': []}'}" in
  let w := on_session (with_user_answers {[0 := Some "B"]})
             (on_session (with_custom_prompt "past tense") fresh_world) in
  let inp := {| uploaded := None; process_clicked := false;
                prompt_text := "past tense"; number_input := 3;
                content_type := Quiz; generate_clicked := true;
                radio := fun _ _ => None; check_clicked := true |} in
  user_answers (session (snd (generate (example_env (Response 200 reply)) inp w))) = ∅.
Proof.
  intros reply w inp.
  apply (proj1 (new_quiz_resets_answers (example_env (Response 200 reply)) inp w
                  eq_refl)
           (snd (generate (example_env (Response 200 reply)) inp w))).
  vm_compute. reflexivity.
Defined.

End GenerateFacts.

(** ** The text extractor *)

Module ExtractFacts.
Import Py Eff App Notions Frames EffFacts StringFacts.

#[local] Arguments String.eqb : simpl never.






End ExtractFacts.

(** ** Checking the answers *)

Module CheckFacts.
Import Py Eff App Notions EffFacts.
Local Open Scope list_scope.

#[local] Arguments subscript : simpl never.
#[local] Arguments String.eqb : simpl never.

(** One turn of the loop. *)
Lemma check_question_run i q score w :
  check_question i q score w =
    match subscript q (PStr "correct_answer") with
    | Raise e => (Raise e, w)
    | Ok correct_answer =>
        if answer_eq (answers_get (user_answers (session w)) i) correct_answer
        then (Ok (score + 1), shown [show_correct (i + 1)] w)
        else
          match subscript q (PStr "options") with
          | Raise e => (Raise e, w)
          | Ok options =>
              match subscript options correct_answer with
              | Raise e => (Raise e, w)
              | Ok text =>
                  (Ok score, shown [show_incorrect (i + 1) correct_answer text] w)
              end
          end
    end.
Proof.
  unfold check_question, bind, get_session, lift. simpl.
  destruct (subscript q (PStr "correct_answer")) as [c|e]; [|done].
  destruct (answer_eq _ c); [done|].
  destruct (subscript q (PStr "options")) as [o|e]; [|done].
  by destruct (subscript o c).
Qed.

(** The questions answered correctly among those from index [i] on. *)
Lemma count_step answers (done_ : list value) q rest :
  length (filter (fun k => answered_correctly answers (done_ ++ q :: rest) k = true)
            (seq (length done_) (S (length rest))))
  = (if answered_correctly answers (done_ ++ q :: rest) (length done_) then 1 else 0)
    + length (filter (fun k => answered_correctly answers
                                 ((done_ ++ [q]) ++ rest) k = true)
                (seq (length (done_ ++ [q])) (length rest))).
Proof.
  rewrite <- app_assoc. simpl seq. rewrite filter_cons.
  rewrite length_app. simpl. rewrite Nat.add_1_r.
  destruct (decide _) as [H|H].
  - by rewrite H.
  - by destruct (answered_correctly _ _ _).
Qed.

Lemma answered_correctly_head answers (done_ : list value) q rest :
  answered_correctly answers (done_ ++ q :: rest) (length done_) =
    match subscript q (PStr "correct_answer") with
    | Ok c => answer_eq (answers_get answers (length done_)) c
    | Raise _ => false
    end.
Proof.
  unfold answered_correctly.
  by rewrite lookup_app_r, Nat.sub_diag by lia.
Qed.

(** The loop over questions whose correct answer is among their options:
    it ends normally, with the count of correct entries added to the score
    and one verdict per question on the page. *)
Lemma check_loop_total (done_ rest : list value) score w :
  Forall answer_among_options rest ->
  let answers := user_answers (session w) in
  exists feedback,
    check_loop (length done_) rest score w =
      (Ok (score + length (filter (fun k => answered_correctly answers
                                              (done_ ++ rest) k = true)
                             (seq (length done_) (length rest)))),
       shown feedback w) /\
    length feedback = length rest /\
    forall k q, rest !! k = Some q ->
      exists e, feedback !! k = Some e /\ verdict answers (length done_ + k) q e.
Proof.
  revert done_ score w. induction rest as [|q rest IH]; intros done_ score w HF answers.
  - exists []. simpl. rewrite shown_nil, Nat.add_0_r. by repeat split.
  - inversion HF as [|? ? (c & o & t & Hc & Ho & Ht) HF']; subst.
    cbn [check_loop]. unfold bind at 1. rewrite check_question_run, Hc.
    rewrite count_step, answered_correctly_head, Hc. fold answers.
    specialize (IH (done_ ++ [q])).
    assert (length (done_ ++ [q]) = S (length done_)) as Len
      by (rewrite length_app; simpl; lia).
    rewrite Len in IH |- *.
    destruct (answer_eq (answers_get answers (length done_)) c) eqn:A.
    + destruct (IH (score + 1) (shown [show_correct (length done_ + 1)] w) HF')
        as (feedback & Run & L & V).
      rewrite Run. exists (show_correct (length done_ + 1) :: feedback).
      rewrite shown_shown. simpl session. fold answers. split; [|split].
      * do 2 f_equal. lia.
      * simpl. by rewrite L.
      * intros [|k] q' Hq; simpl in Hq.
        -- injection Hq as <-. eexists; split; [done|].
           rewrite Nat.add_0_r. by apply (verdict_correct _ _ _ c).
        -- destruct (V k q' Hq) as (e & He & Ve). exists e. split; [done|].
           by replace (length done_ + S k) with (S (length done_) + k) by lia.
    + rewrite Ho, Ht.
      destruct (IH score (shown [show_incorrect (length done_ + 1) c t] w) HF')
        as (feedback & Run & L & V).
      rewrite Run. exists (show_incorrect (length done_ + 1) c t :: feedback).
      rewrite shown_shown. simpl session. fold answers. split; [|split].
      * done.
      * simpl. by rewrite L.
      * intros [|k] q' Hq; simpl in Hq.
        -- injection Hq as <-. eexists; split; [done|].
           rewrite Nat.add_0_r. by apply (verdict_incorrect _ _ _ c o t).
        -- destruct (V k q' Hq) as (e & He & Ve). exists e. split; [done|].
           by replace (length done_ + S k) with (S (length done_) + k) by lia.
Qed.

(** A loop that ends normally found, in every question, a correct answer
    and, when the entry of the sheet differs from it, its text among the
    options. *)
Lemma check_loop_ok_inv i (rest : list value) score w r w' :
  check_loop i rest score w = (Ok r, w') ->
  forall k q, rest !! k = Some q ->
    exists c,
      subscript q (PStr "correct_answer") = Ok c /\
      (answer_eq (answers_get (user_answers (session w)) (i + k)) c = false ->
       exists o t, subscript q (PStr "options") = Ok o /\ subscript o c = Ok t).
Proof.
  revert i score w. induction rest as [|q rest IH]; intros i score w Run k q' Hq;
    [done|].
  cbn [check_loop] in Run. unfold bind at 1 in Run.
  rewrite check_question_run in Run.
  destruct (subscript q (PStr "correct_answer")) as [c|e] eqn:Hc; [|done].
  destruct k as [|k]; simpl in Hq.
  - injection Hq as <-. exists c. split; [done|]. rewrite Nat.add_0_r. intros A.
    rewrite A in Run.
    destruct (subscript q (PStr "options")) as [o|e] eqn:Ho; [|done].
    destruct (subscript o c) as [t|e] eqn:Ht; [|done]. by exists o, t.
  - replace (i + S k) with (S i + k) by lia.
    destruct (answer_eq _ c).
    + apply (IH _ _ _ Run k q' Hq).
    + destruct (subscript q (PStr "options")) as [o|e]; [|done].
      destruct (subscript o c) as [t|e]; [|done].
      apply (IH _ _ _ Run k q' Hq).
Qed.

Lemma quiz_questions_run w :
  quiz_questions w =
    (match subscript (quiz (session w)) (PStr "questions") with
     | Ok v => iterate v
     | Raise e => Raise e
     end, w).
Proof.
  unfold quiz_questions, bind, get_session, lift.
  by destruct (subscript (quiz (session w)) (PStr "questions")).
Qed.

Lemma quiz_questions_shown es w :
  fst (quiz_questions (shown es w)) = fst (quiz_questions w).
Proof. by rewrite !quiz_questions_run. Qed.

Lemma quiz_questions_forget answers w :
  fst (quiz_questions (forget answers w)) = fst (quiz_questions w).
Proof. by rewrite !quiz_questions_run. Qed.

Lemma check_answers_run w questions :
  fst (quiz_questions w) = Ok questions ->
  check_answers w =
    match check_loop 0 questions 0 w with
    | (Ok score, w1) =>
        match fst (quiz_questions w1) with
        | Ok questions' => (Ok tt, shown [show_score score (length questions')] w1)
        | Raise e => (Raise e, w1)
        end
    | (Raise e, w1) => (Raise e, w1)
    end.
Proof.
  intros Q. unfold check_answers. unfold bind at 1.
  rewrite quiz_questions_run in Q |- *. simpl in Q. rewrite Q.
  unfold bind at 1. destruct (check_loop 0 questions 0 w) as [[score|e] w1]; [|done].
  unfold bind at 1. rewrite quiz_questions_run. simpl.
  by destruct (match subscript (quiz (session w1)) (PStr "questions") with
               | Ok v => iterate v | Raise e => Raise e end).
Qed.

(** The check over questions whose correct answer is among their options. *)
Lemma check_answers_total w (questions : list value) :
  fst (quiz_questions w) = Ok questions ->
  Forall answer_among_options questions ->
  exists feedback,
    check_answers w =
      (Ok tt,
       shown (feedback ++ [show_score (correct_count (user_answers (session w))
                                         questions)
                             (length questions)]) w) /\
    length feedback = length questions /\
    forall k q, questions !! k = Some q ->
      exists e, feedback !! k = Some e /\
                verdict (user_answers (session w)) k q e.
Proof.
  intros Q HF. rewrite (check_answers_run _ _ Q).
  destruct (check_loop_total [] questions 0 w HF) as (feedback & Run & L & V).
  simpl in Run. rewrite Run, quiz_questions_shown, Q, shown_shown.
  exists feedback. by repeat split.
Qed.

(** C10. With the questions of the quiz enumerated: when the correct answer
    of every question is a key of its options, the check ends normally for
    the sheet at hand and shows, for every question, a verdict, which for a
    question answered incorrectly (or not at all) carries the text
    [options[correct_answer]]; and the check ends normally for every sheet
    only if the correct answer of every question is a key of its options. *)
Theorem check_answers_total_iff_answer_among_options (w : world)
    (questions : list value) :
  fst (quiz_questions w) = Ok questions ->
  (Forall answer_among_options questions ->
   exists feedback,
     check_answers w =
       (Ok tt,
        shown (feedback ++ [show_score (correct_count (user_answers (session w))
                                          questions)
                              (length questions)]) w) /\
     forall k q, questions !! k = Some q ->
       exists e, feedback !! k = Some e /\
                 verdict (user_answers (session w)) k q e) /\
  ((forall answers, is_ok (fst (check_answers (forget answers w))) = true) ->
   Forall answer_among_options questions).
Proof.
  intros Q. split.
  - intros HF. destruct (check_answers_total w questions Q HF) as (f & R & _ & V).
    by exists f.
  - intros T. apply Forall_lookup. intros k q Hq.
    assert (forall answers, exists r w',
              check_loop 0 questions 0 (forget answers w) = (Ok r, w')) as Runs.
    { intros answers. specialize (T answers).
      rewrite (check_answers_run _ questions) in T
        by (by rewrite quiz_questions_forget).
      destruct (check_loop 0 questions 0 (forget answers w)) as [[r|e] w'];
        [by exists r, w'|done]. }
    destruct (Runs ∅) as (r & w' & Run).
    destruct (check_loop_ok_inv _ _ _ _ _ _ Run k q Hq) as (c & Hc & Miss).
    destruct (answer_eq None c) eqn:A.
    + assert (c = PNone) as -> by (by destruct c).
      destruct (Runs {[k := Some EmptyString]}) as (r2 & w2 & Run2).
      destruct (check_loop_ok_inv _ _ _ _ _ _ Run2 k q Hq) as (c' & Hc' & Miss').
      rewrite Hc in Hc'. injection Hc' as <-.
      destruct Miss' as (o & t & Ho & Ht).
      { simpl. unfold answers_get. by rewrite lookup_singleton_eq. }
      by exists PNone, o, t.
    + destruct Miss as (o & t & Ho & Ht).
      { simpl. unfold answers_get. by rewrite lookup_empty. }
      by exists c, o, t.
Qed.

Lemma check_answers_total_iff_answer_among_options_witness :
  let w := quiz_world {[0 := Some "A"]} in
  exists feedback,
    check_answers w =
      (Ok tt,
       shown (feedback ++ [show_score (correct_count (user_answers (session w))
                                         [one_question])
                             (length [one_question])]) w) /\
    forall k q, [one_question] !! k = Some q ->
      exists e, feedback !! k = Some e /\
                verdict (user_answers (session w)) k q e.
Proof.
  intros w.
  apply (proj1 (check_answers_total_iff_answer_among_options
                  w [one_question] eq_refl)).
  constructor; [|constructor].
  exists (PStr "B"),
         (PDict [("A", PStr "x"); ("B", PStr "y"); ("C", PStr "z"); ("D", PStr "w")]),
         (PStr "y").
  repeat split; reflexivity.
Defined.

(** *** Quizzes of the data model *)

Lemma subscript_dict kvs k :
  subscript (PDict kvs) (PStr k) =
    match dict_get kvs k with Some x => Ok x | None => Raise KeyError end.
Proof. reflexivity. Qed.

(** The value under a key is what the subscription of the script finds. *)
Lemma field_dict_get kvs k : field kvs k = dict_get kvs k.
Proof.
  unfold field. induction kvs as [|[k' v] kvs IH]; cbn [dict_get list_to_map].
  - apply lookup_empty.
  - simpl. destruct (String.eqb_spec k' k) as [->|Hne].
    + apply lookup_insert_eq.
    + by rewrite lookup_insert_ne.
Qed.

Lemma label_name_inj l1 l2 : label_name l1 = label_name l2 -> l1 = l2.
Proof. by destruct l1, l2. Qed.

Lemma option_of_label (f : label -> string) (ls : list label) (c : label) :
  c ∈ ls ->
  dict_get (map (fun l => (label_name l, PStr (f l))) ls) (label_name c)
  = Some (PStr (f c)).
Proof.
  induction ls as [|l ls IH]; intros H; [by apply elem_of_nil in H|].
  cbn [map dict_get]. destruct (String.eqb_spec (label_name l) (label_name c)) as [Q|N].
  - by apply label_name_inj in Q as ->.
  - apply IH. apply elem_of_cons in H as [->|H]; done.
Qed.

Lemma label_listed (q : question) (c : label) :
  listed q ≡ₚ all_labels -> c ∈ listed q.
Proof. intros ->. unfold all_labels. destruct c; set_solver. Qed.

(** What the subscriptions of the script find in the decoded form of a
    question. *)
Lemma question_of_subscripts v q :
  question_of v q ->
  let options :=
    PDict (map (fun l => (label_name l, PStr (option_text q l))) (listed q)) in
  subscript v (PStr "question") = Ok (PStr (stem q)) /\
  subscript v (PStr "options") = Ok options /\
  subscript v (PStr "correct_answer") = Ok (PStr (label_name (correct q))) /\
  subscript options (PStr (label_name (correct q)))
    = Ok (PStr (option_text q (correct q))) /\
  keys options = Ok (map label_name (listed q)).
Proof.
  intros (P & kvs & -> & Hq & Ho & Hc) options.
  rewrite field_dict_get in Hq, Ho, Hc.
  rewrite !subscript_dict, Hq, Ho, Hc. repeat split.
  - unfold options. rewrite subscript_dict, option_of_label; [done|].
    by apply label_listed.
  - unfold options, keys. f_equal. rewrite map_map. by apply map_ext.
Qed.

(** The decoded form of a question has its four options and its answer
    among them. *)
Lemma question_of_four_options v q : question_of v q -> four_options v = true.
Proof.
  intros (P & kvs & -> & Hq & Ho & Hc). rewrite field_dict_get in Hq, Ho, Hc.
  unfold four_options. rewrite Ho, Hc, Hq. cbn [is_text].
  rewrite length_map, P. cbn [length all_labels Nat.eqb andb labels forallb].
  change "A" with (label_name LA). change "B" with (label_name LB).
  change "C" with (label_name LC). change "D" with (label_name LD).
  rewrite !option_of_label by (by apply label_listed).
  by destruct (correct q).
Qed.

Lemma question_of_answerable v q : question_of v q -> answer_among_options v.
Proof.
  intros H. destruct (question_of_subscripts v q H) as (_ & Ho & Hc & Ht & _).
  eexists _, _, _. by repeat split.
Qed.

(** The questions that the script enumerates in the decoded form of a
    quiz. *)
Lemma quiz_of_questions w qs :
  quiz_of (quiz (session w)) qs ->
  truthy (quiz (session w)) = true /\
  exists items,
    fst (quiz_questions w) = Ok items /\ Forall2 question_of items qs.
Proof.
  intros (kvs & items & Hv & Hf & F). rewrite field_dict_get in Hf. split.
  - rewrite Hv. by destruct kvs.
  - exists items. split; [|done].
    by rewrite quiz_questions_run, Hv, subscript_dict, Hf.
Qed.

Lemma quiz_of_invariant v qs : quiz_of v qs -> quiz_invariant v = true.
Proof.
  intros (kvs & items & -> & Hf & F). rewrite field_dict_get in Hf.
  unfold quiz_invariant. rewrite Hf. apply forallb_forall. intros x Hx.
  apply list_elem_of_In, list_elem_of_lookup in Hx as [i Hi].
  destruct (Forall2_lookup_l _ _ _ _ _ F Hi) as (q & _ & Hq).
  by apply (question_of_four_options x q).
Qed.

Lemma quiz_of_answerable items qs :
  Forall2 question_of items qs -> Forall answer_among_options items.
Proof.
  intros F. apply Forall_lookup. intros i v Hv.
  destruct (Forall2_lookup_l _ _ _ _ _ F Hv) as (q & _ & Hq).
  by apply (question_of_answerable v q).
Qed.

(** The comparison of the script agrees with the data model. *)
Lemma answered_correctly_matches answers items qs i :
  Forall2 question_of items qs ->
  answered_correctly answers items i = entry_matches answers qs i.
Proof.
  intros F. unfold answered_correctly, entry_matches.
  destruct (items !! i) as [v|] eqn:Hv.
  - destruct (Forall2_lookup_l _ _ _ _ _ F Hv) as (q & -> & Hq).
    destruct (question_of_subscripts v q Hq) as (_ & _ & -> & _).
    unfold answers_get. destruct (answers !! i) as [[a|]|]; cbn [answer_eq].
    + destruct (String.eqb_spec a (label_name (correct q))) as [->|N].
      * by rewrite bool_decide_eq_true_2.
      * rewrite bool_decide_eq_false_2; [done|]. by intros [= ?].
    + by rewrite bool_decide_eq_false_2.
    + by rewrite bool_decide_eq_false_2.
  - apply lookup_ge_None in Hv. rewrite (Forall2_length _ _ _ F) in Hv.
    apply lookup_ge_None in Hv. by rewrite Hv.
Qed.

Lemma filter_length_agree (P Q : nat -> bool) (l : list nat) :
  (forall i, i ∈ l -> P i = Q i) ->
  length (filter (fun i => P i = true) l) = length (filter (fun i => Q i = true) l).
Proof.
  induction l as [|x l IH]; intros H; [done|].
  assert (length (filter (fun i => P i = true) l)
          = length (filter (fun i => Q i = true) l)) as E
    by (apply IH; intros i Hi; apply H; set_solver).
  rewrite !filter_cons, (H x) by set_solver.
  destruct (decide (Q x = true)); simpl; by rewrite E.
Qed.

Lemma correct_count_matches answers items qs :
  Forall2 question_of items qs ->
  correct_count answers items = matching_entries answers qs.
Proof.
  intros F. unfold correct_count, matching_entries.
  rewrite (Forall2_length _ _ _ F). apply filter_length_agree.
  intros i _. by apply answered_correctly_matches.
Qed.

(** C2. For every quiz of the data model and every answer sheet, the
    check ends normally and its score line gives, as total, the number of
    questions and, as score, the number of questions for which the sheet
    holds the label of the correct answer. The score is at most the total.
    Every question gets its feedback: correct when the entry matches, and
    otherwise, also when the sheet has no entry for it, incorrect with the
    label and the text of the correct option; a question without an entry
    is never counted and never an error. *)
Theorem check_answers_counts_correct_entries (w : world) (qs : list question) :
  quiz_of (quiz (session w)) qs ->
  let answers := user_answers (session w) in
  exists feedback,
    check_answers w =
      (Ok tt,
       shown (feedback ++ [show_score (matching_entries answers qs) (length qs)])
         w) /\
    matching_entries answers qs <= length qs /\
    length feedback = length qs /\
    (forall i q, qs !! i = Some q ->
       feedback !! i = Some (feedback_on answers qs i q)) /\
    (forall i, answers !! i = None -> entry_matches answers qs i = false).
Proof.
  intros Q answers. destruct (quiz_of_questions w qs Q) as (_ & items & HQ & F).
  pose proof (quiz_of_answerable items qs F) as A.
  destruct (check_answers_total w items HQ A) as (feedback & Run & L & V).
  exists feedback. fold answers in Run, V.
  rewrite Run, (correct_count_matches _ _ _ F), (Forall2_length _ _ _ F).
  split; [done|]. split; [|split; [|split]].
  - unfold matching_entries. etrans; [apply length_filter|]. by rewrite length_seq.
  - by rewrite L, (Forall2_length _ _ _ F).
  - intros i q Hq.
    destruct (Forall2_lookup_r _ _ _ _ _ F Hq) as (v & Hv & Hvq).
    destruct (V i v Hv) as (e & He & Ve). rewrite He. f_equal.
    destruct (question_of_subscripts v q Hvq) as (_ & Ho & Hc & Ht & _).
    pose proof (answered_correctly_matches answers items qs i F) as M.
    unfold answered_correctly in M. rewrite Hv, Hc in M.
    unfold feedback_on. rewrite <- M.
    destruct Ve as [c Hc' Eq|c o t Hc' Eq Ho' Ht'];
      rewrite Hc in Hc'; injection Hc' as <-; rewrite Eq; [done|].
    rewrite Ho in Ho'. injection Ho' as <-.
    rewrite Ht in Ht'. by injection Ht' as <-.
  - intros i Hi. unfold entry_matches. destruct (qs !! i); [|done].
    rewrite Hi. by rewrite bool_decide_eq_false_2.
Qed.

Lemma check_answers_counts_correct_entries_witness :
  let w := quiz_world {[0 := Some "B"]} in
  exists feedback,
    check_answers w =
      (Ok tt, shown (feedback ++ [show_score 1 1]) w) /\
    matching_entries (user_answers (session w)) [question_one] <= 1 /\
    length feedback = 1 /\
    (forall i q, [question_one] !! i = Some q ->
       feedback !! i
       = Some (feedback_on (user_answers (session w)) [question_one] i q)) /\
    (forall i, user_answers (session w) !! i = None ->
       entry_matches (user_answers (session w)) [question_one] i = false).
Proof.
  intros w. apply (check_answers_counts_correct_entries w [question_one]).
  exists [("questions", PList [one_question])], [one_question].
  split; [reflexivity|]. split; [reflexivity|].
  constructor; [|constructor]. split; [reflexivity|].
  eexists. split; [reflexivity|]. repeat split; reflexivity.
Defined.

(** The quiz of the testable properties is what its text decodes to, and
    the three sheets score 1/1, 0/1 and 0/1. *)
Lemma one_question_scores :
  loads offline in_generate_quiz one_question_reply = Ok one_question_quiz /\
  page (snd (check_answers (quiz_world {[0 := Some "B"]})))
    = [show_correct 1; show_score 1 1] /\
  page (snd (check_answers (quiz_world {[0 := Some "A"]})))
    = [show_incorrect 1 (PStr "B") (PStr "y"); show_score 0 1] /\
  page (snd (check_answers (quiz_world ∅)))
    = [show_incorrect 1 (PStr "B") (PStr "y"); show_score 0 1].
Proof. repeat split; vm_compute; reflexivity. Qed.

End CheckFacts.

(** ** What the computations leave as it is *)

Module KeepFacts.
Import Py Eff App Notions Frames EffFacts.
Local Open Scope list_scope.

Section Keeps.
Context (R : world -> world -> Prop) `{!Reflexive R} `{!Transitive R}.

Lemma keeps_ret {A} (a : A) : keeps R (ret a).
Proof using Type*. intros w. simpl. reflexivity. Qed.

Lemma keeps_lift {A} (r : result A) : keeps R (lift r).
Proof using Type*. intros w. simpl. reflexivity. Qed.

Lemma keeps_raise {A} (e : exn) : keeps R (@raise A e).
Proof using Type*. intros w. simpl. reflexivity. Qed.

Lemma keeps_get_session : keeps R get_session.
Proof using Type*. intros w. simpl. reflexivity. Qed.

Lemma keeps_bind {A B} (m : M A) (f : A -> M B) :
  keeps R m -> (forall a, keeps R (f a)) -> keeps R (bind m f).
Proof using Type*.
  intros Hm Hf w. unfold bind. specialize (Hm w).
  destruct (m w) as [[a|e] w1]; simpl in *; [|done].
  etrans; [exact Hm|apply Hf].
Qed.

Lemma keeps_try_except {A} (m : M A) handler :
  keeps R m -> (forall e h, handler e = Some h -> keeps R h) ->
  keeps R (try_except m handler).
Proof using Type*.
  intros Hm Hh w. unfold try_except. specialize (Hm w).
  destruct (m w) as [[a|e] w1]; simpl in *; [done|].
  destruct (handler e) as [h|] eqn:Q; [|done].
  etrans; [exact Hm|by apply (Hh e)].
Qed.

Lemma keeps_show e : allows_page R -> keeps R (show e).
Proof. intros H w. apply H. Qed.

Lemma keeps_record_sent r : allows_sent R -> keeps R (record_sent r).
Proof. intros H w. apply H. Qed.

Lemma keeps_set_files f : allows_files R -> keeps R (set_files f).
Proof. intros H w. apply H. Qed.

Lemma keeps_set_session f : allows_session R f -> keeps R (set_session f).
Proof. intros H w. apply H. Qed.

Lemma keeps_read_file path : keeps R (read_file path).
Proof using Type*.
  intros w. unfold read_file. destruct (files w !! path); simpl; reflexivity.
Qed.

Lemma keeps_named_temporary_file E suffix content :
  allows_files R -> keeps R (named_temporary_file E suffix content).
Proof. intros H w. apply H. Qed.

End Keeps.

Create HintDb keeps.
#[local] Hint Resolve keeps_ret keeps_lift keeps_raise keeps_get_session
  keeps_show keeps_record_sent keeps_set_files keeps_set_session keeps_read_file
  keeps_named_temporary_file : keeps.

Ltac keeping :=
  repeat first
    [ solve [auto with keeps]
    | apply keeps_bind; [assumption|assumption| |intros]
    | apply keeps_try_except; [assumption|assumption| |intros ? ? ?]
    | case_match; simplify_eq ].

Section Handlers.
Context (R : world -> world -> Prop) `{!Reflexive R} `{!Transitive R}.

Lemma keeps_json_loads E site v : keeps R (json_loads E site v).
Proof using Type*. unfold json_loads. keeping. Qed.

Lemma keeps_parse E response : allows_page R -> keeps R (parse E response).
Proof using Type*.
  intros P. unfold parse. pose proof (keeps_json_loads E). keeping.
Qed.

Lemma keeps_query_ollama E context task :
  allows_page R -> allows_sent R -> keeps R (query_ollama E context task).
Proof using Type*.
  intros P S. unfold query_ollama, requests_post. cbv zeta.
  pose proof (keeps_json_loads E). keeping.
Qed.

Lemma keeps_generate_quiz E context n :
  allows_page R -> allows_sent R -> keeps R (generate_quiz E context n).
Proof using Type*.
  intros P S. unfold generate_quiz. cbv zeta.
  pose proof (keeps_query_ollama E). pose proof (keeps_parse E). keeping.
Qed.

Lemma keeps_summarize_content E context :
  allows_page R -> allows_sent R -> keeps R (summarize_content E context).
Proof using Type*.
  intros P S. unfold summarize_content. cbv zeta.
  pose proof (keeps_query_ollama E). keeping.
Qed.

Lemma keeps_convert_to_pdf E file :
  allows_files R -> keeps R (convert_to_pdf E file).
Proof using Type*.
  intros F. unfold convert_to_pdf, converted, os_rename. cbv zeta. keeping.
Qed.

Lemma keeps_extract_text_from_pdf E pdf_file :
  keeps R (extract_text_from_pdf E pdf_file).
Proof using Type*. unfold extract_text_from_pdf. keeping. Qed.

Lemma keeps_process_file E inp :
  allows_files R -> allows_page R ->
  (forall t, allows_session R (with_pdf_text t)) ->
  keeps R (process_file E inp).
Proof using Type*.
  intros F P S. unfold process_file.
  pose proof (keeps_convert_to_pdf E). pose proof (keeps_extract_text_from_pdf E).
  keeping.
Qed.

Lemma keeps_check_question i q score :
  allows_page R -> keeps R (check_question i q score).
Proof using Type*. intros P. unfold check_question. keeping. Qed.

Lemma keeps_check_loop i questions score :
  allows_page R -> keeps R (check_loop i questions score).
Proof using Type*.
  intros P. revert i score. induction questions as [|q rest IH]; intros i score.
  - apply keeps_ret; assumption.
  - cbn [check_loop]. pose proof keeps_check_question. keeping.
Qed.

Lemma keeps_quiz_questions : keeps R quiz_questions.
Proof using Type*. unfold quiz_questions. keeping. Qed.

Lemma keeps_check_answers : allows_page R -> keeps R check_answers.
Proof using Type*.
  intros P. unfold check_answers.
  pose proof keeps_check_loop. pose proof keeps_quiz_questions. keeping.
Qed.

Lemma keeps_render_questions inp i questions :
  allows_page R ->
  (forall j a, allows_session R
                 (fun s => with_user_answers (<[j := a]> (user_answers s)) s)) ->
  keeps R (render_questions inp i questions).
Proof using Type*.
  intros P S. revert i. induction questions as [|q rest IH]; intros i.
  - apply keeps_ret; assumption.
  - cbn [render_questions]. keeping.
Qed.

Lemma keeps_render inp :
  allows_page R ->
  (forall j a, allows_session R
                 (fun s => with_user_answers (<[j := a]> (user_answers s)) s)) ->
  keeps R (render inp).
Proof using Type*.
  intros P S. unfold render.
  pose proof keeps_render_questions. pose proof keeps_check_answers.
  pose proof keeps_quiz_questions. keeping.
Qed.

Lemma keeps_generate E inp :
  allows_page R -> allows_sent R ->
  (content_type inp = Quiz ->
   (forall q, allows_session R (with_quiz q)) /\
   allows_session R (with_user_answers ∅)) ->
  (content_type inp = Summary -> forall v, allows_session R (with_summary v)) ->
  keeps R (generate E inp).
Proof using Type*.
  intros P S HQ HS. unfold generate.
  pose proof (keeps_generate_quiz E). pose proof (keeps_summarize_content E).
  apply keeps_bind; [assumption|assumption|auto with keeps|]. intros s.
  destruct (content_type inp).
  - destruct (HQ eq_refl). keeping.
  - specialize (HS eq_refl). keeping.
Qed.

End Handlers.

(** The relations are preorders. *)

#[export] Instance only_files_refl : Reflexive only_files.
Proof. by intros w. Qed.
#[export] Instance only_files_trans : Transitive only_files.
Proof.
  intros a b c (H1 & H2 & H3) (K1 & K2 & K3). unfold only_files. by rewrite K1, K2, K3.
Qed.

#[export] Instance same_sent_refl : Reflexive same_sent.
Proof. by intros w. Qed.
#[export] Instance same_sent_trans : Transitive same_sent.
Proof. intros a b c H K. unfold same_sent in *. by rewrite K. Qed.

#[export] Instance same_sources_refl : Reflexive same_sources.
Proof. by intros w. Qed.
#[export] Instance same_sources_trans : Transitive same_sources.
Proof. intros a b c [H1 H2] [K1 K2]. unfold same_sources. by rewrite K1, K2. Qed.

#[export] Instance same_quiz_refl : Reflexive same_quiz.
Proof. by intros w. Qed.
#[export] Instance same_quiz_trans : Transitive same_quiz.
Proof. intros a b c [H1 H2] [K1 K2]. unfold same_quiz. by rewrite K1, K2. Qed.

#[export] Instance same_summary_refl : Reflexive same_summary.
Proof. by intros w. Qed.
#[export] Instance same_summary_trans : Transitive same_summary.
Proof. intros a b c H K. unfold same_summary in *. by rewrite K. Qed.

End KeepFacts.

(** ** Uploads *)

Module UploadFacts.
Import Py Eff App Notions Frames EffFacts StringFacts KeepFacts.
Local Open Scope list_scope.

#[local] Arguments String.eqb : simpl never.

Lemma append_nil_r (a : string) : (a ++ EmptyString)%string = a.
Proof. induction a as [|x a IH]; [done|]. rewrite append_cons. by f_equal. Qed.

Lemma concat_pages_ok texts acc :
  concat_pages (map Ok texts) acc = Ok (acc ++ join_texts texts)%string.
Proof.
  revert acc. induction texts as [|t texts IH]; intros acc; simpl.
  - by rewrite append_nil_r.
  - by rewrite IH, append_assoc.
Qed.

Lemma concat_pages_raise texts e rest acc :
  concat_pages (map Ok texts ++ Raise e :: rest) acc = Raise e.
Proof. revert acc. induction texts as [|t texts IH]; intros acc; simpl; [done|apply IH]. Qed.

Lemma concat_pages_inv pages acc text :
  concat_pages pages acc = Ok text ->
  exists texts, pages = map Ok texts /\ text = (acc ++ join_texts texts)%string.
Proof.
  revert acc. induction pages as [|[t|e] pages IH]; intros acc; simpl.
  - intros [= <-]. exists []. by rewrite append_nil_r.
  - intros H. destruct (IH _ H) as (texts & -> & ->).
    exists (t :: texts). by rewrite append_assoc.
  - done.
Qed.

(** X1. When the reader finds the pages and every page gives its text, the
    text extracted is the page texts put end to end in page order, with
    nothing between them (the empty string for a document without pages),
    and the world is as before. *)
Theorem extract_text_joins_pages E (pdf_file : string) (texts : list string)
    (w : world) :
  pdf_pages E pdf_file = Ok (map Ok texts) ->
  extract_text_from_pdf E pdf_file w = (Ok (join_texts texts), w).
Proof.
  intros H. unfold extract_text_from_pdf, bind, lift. rewrite H.
  by rewrite concat_pages_ok.
Qed.

Lemma extract_text_joins_pages_witness :
  extract_text_from_pdf reading_two_pages two_pages fresh_world
  = (Ok "HelloWorld"%string, fresh_world).
Proof.
  apply (extract_text_joins_pages reading_two_pages two_pages
           ["Hello"; "World"]%string fresh_world).
  vm_compute. reflexivity.
Defined.

(** X2. When the reader raises, or the first page that fails to give its
    text raises, the extraction raises that exception: the text of the
    pages before is not returned. *)
Theorem extract_text_raises_with_first_bad_page E (pdf_file : string) (e : exn)
    (w : world) :
  pdf_pages E pdf_file = Raise e \/
  (exists texts rest, pdf_pages E pdf_file = Ok (map Ok texts ++ Raise e :: rest)) ->
  extract_text_from_pdf E pdf_file w = (Raise e, w).
Proof.
  intros [H|(texts & rest & H)]; unfold extract_text_from_pdf, bind, lift;
    rewrite H; [done|]. by rewrite concat_pages_raise.
Qed.

Lemma extract_text_raises_with_first_bad_page_witness :
  extract_text_from_pdf (example_env (Failure "Connection refused"))
    "hello" fresh_world
  = (Raise (ExternalError "PdfReadError"), fresh_world).
Proof.
  apply (extract_text_raises_with_first_bad_page
           (example_env (Failure "Connection refused")) "hello"
           (ExternalError "PdfReadError") fresh_world).
  left. reflexivity.
Defined.

(** *** The handler *)

Lemma only_files_allows : allows_files only_files.
Proof. by intros f w. Qed.

Lemma keeps_load_text E file : keeps only_files (load_text E file).
Proof.
  unfold load_text.
  pose proof (keeps_convert_to_pdf only_files E file only_files_allows).
  pose proof (keeps_extract_text_from_pdf only_files E).
  pose proof (keeps_read_file only_files).
  apply keeps_bind; [apply _|apply _| |done].
  case_match; [apply keeps_ret; apply _|].
  apply keeps_bind; [apply _|apply _|done|done].
Qed.

Lemma process_file_run E inp file w :
  uploaded inp = Some file -> process_clicked inp = true ->
  process_file E inp w =
    match load_text E file w with
    | (Ok text, w1) =>
        (Ok tt, shown [st_success processed] (on_session (with_pdf_text text) w1))
    | (Raise e, w1) => (Raise e, w1)
    end.
Proof.
  intros U P. unfold process_file, load_text. rewrite U, P.
  set (pre := if String.eqb (type file) "application/pdf"
              then ret (getvalue file)
              else bind (convert_to_pdf E file) (fun pdf_path => read_file pdf_path)).
  unfold bind. destruct (pre w) as [[bytes|e] w0]; [|done].
  by destruct (extract_text_from_pdf E bytes w0) as [[text|e] w1].
Qed.

Lemma process_file_idle E inp w :
  uploaded inp = None \/ process_clicked inp = false ->
  process_file E inp w = (Ok tt, w).
Proof.
  intros [H|H]; unfold process_file; rewrite H; [done|].
  by destruct (uploaded inp).
Qed.

(** X3. When the upload handler raises, whatever the exception and the
    place, the session state (the document text of an earlier upload
    included), the page and the requests sent are as before. *)
Theorem process_file_failure_changes_nothing E (inp : inputs) (w w' : world)
    (e : exn) :
  process_file E inp w = (Raise e, w') ->
  session w' = session w /\ page w' = page w /\ sent w' = sent w.
Proof.
  destruct (uploaded inp) as [file|] eqn:U;
    [|by rewrite process_file_idle by (by left)].
  destruct (process_clicked inp) eqn:P;
    [|by rewrite process_file_idle by (by right)].
  rewrite (process_file_run _ _ _ _ U P).
  pose proof (keeps_load_text E file w) as K.
  destruct (load_text E file w) as [[text|e'] w1]; [done|].
  by intros [= <- <-].
Qed.

Lemma process_file_failure_changes_nothing_witness :
  let inp := with_upload {| name := "scan.pdf"; type := "application/pdf";
                            getvalue := "hello" |}
               {| uploaded := None; process_clicked := true;
                  prompt_text := EmptyString; number_input := 5;
                  content_type := Quiz; generate_clicked := false;
                  radio := fun _ _ => None; check_clicked := false |} in
  let E := example_env (Failure "Connection refused") in
  let w := on_session (with_pdf_text "Chapter 1") fresh_world in
  session (snd (process_file E inp w)) = session w /\
  page (snd (process_file E inp w)) = page w /\
  sent (snd (process_file E inp w)) = sent w.
Proof.
  intros inp E w.
  apply (process_file_failure_changes_nothing E inp w (snd (process_file E inp w))
           (ExternalError "PdfReadError")).
  reflexivity.
Defined.

(** X4. When the upload handler processes a file and ends normally, the
    document text is replaced by the joined page texts of the bytes read
    (the uploaded bytes themselves when the upload is declared as a PDF),
    the success message is added to the page, and nothing else of the
    session changes: a quiz, its answers and a summary made from an earlier
    document stay. *)
Theorem process_file_replaces_text E (inp : inputs) (file : uploaded_file)
    (w w' : world) :
  uploaded inp = Some file -> process_clicked inp = true ->
  process_file E inp w = (Ok tt, w') ->
  exists bytes texts,
    pdf_pages E bytes = Ok (map Ok texts) /\
    (type file = "application/pdf" -> bytes = getvalue file /\ files w' = files w) /\
    session w' = with_pdf_text (join_texts texts) (session w) /\
    page w' = page w ++ [st_success processed] /\
    sent w' = sent w.
Proof.
  intros U P. rewrite (process_file_run _ _ _ _ U P).
  pose proof (keeps_load_text E file w) as K.
  destruct (load_text E file w) as [[text|e'] w1] eqn:L; [|done].
  intros [= <-]. destruct K as (K1 & K2 & K3). simpl in K1, K2, K3.
  unfold load_text in L.
  set (pre := if String.eqb (type file) "application/pdf"
              then ret (getvalue file)
              else bind (convert_to_pdf E file) (fun pdf_path => read_file pdf_path))
    in L.
  unfold bind at 1 in L.
  destruct (pre w) as [[bytes|e] w0] eqn:B; [|done]. subst pre.
  unfold extract_text_from_pdf, bind, lift in L.
  destruct (pdf_pages E bytes) as [pages|e] eqn:Pg; [|done].
  destruct (concat_pages pages EmptyString) as [t|e] eqn:C; [|done].
  injection L as <- <-.
  destruct (concat_pages_inv _ _ _ C) as (texts & -> & ->).
  exists bytes, texts. split; [done|]. split.
  - intros T. rewrite T in B. by injection B as <- <-.
  - simpl. by rewrite K1, K2, K3.
Qed.

Lemma process_file_replaces_text_witness :
  let file := {| name := "scan.pdf"; type := "application/pdf";
                 getvalue := "%PDF-Chapter 2" |} in
  let inp := with_upload file
               {| uploaded := None; process_clicked := true;
                  prompt_text := EmptyString; number_input := 5;
                  content_type := Quiz; generate_clicked := false;
                  radio := fun _ _ => None; check_clicked := false |} in
  let E := example_env (Failure "Connection refused") in
  let w := quiz_world {[0 := Some "B"]} in
  exists bytes texts,
    pdf_pages E bytes = Ok (map Ok texts) /\
    (type file = "application/pdf" ->
     bytes = getvalue file /\ files (snd (process_file E inp w)) = files w) /\
    session (snd (process_file E inp w))
      = with_pdf_text (join_texts texts) (session w) /\
    page (snd (process_file E inp w)) = page w ++ [st_success processed] /\
    sent (snd (process_file E inp w)) = sent w.
Proof.
  intros file inp E w.
  apply (process_file_replaces_text E inp file w (snd (process_file E inp w)));
    reflexivity.
Defined.

(** *** Conversion *)

Lemma extract_text_run E bytes w :
  extract_text_from_pdf E bytes w =
    (match pdf_pages E bytes with
     | Ok pages => concat_pages pages EmptyString
     | Raise e => Raise e
     end, w).
Proof.
  unfold extract_text_from_pdf, bind, lift. by destruct (pdf_pages E bytes).
Qed.


Lemma pdf_path_fresh (tmp : string) : (tmp ++ ".pdf")%string <> tmp.
Proof.
  intros H. apply (f_equal String.length) in H.
  rewrite append_length in H. simpl in H. lia.
Qed.

(** [convert_to_pdf], branch by branch. *)
Lemma convert_to_pdf_run E file w :
  let tmp := tempname E (files w) (extension E file) in
  let pdf_path := (tmp ++ ".pdf")%string in
  let w0 := on_files (fun fs => <[tmp := getvalue file]> fs) w in
  convert_to_pdf E file w =
    if String.eqb (extension E file) ".pptx" then
      match pptx_save E (getvalue file) with
      | Ok out => (Ok pdf_path, on_files (fun fs => <[pdf_path := out]> fs) w0)
      | Raise e => (Raise e, w0)
      end
    else if String.eqb (extension E file) ".docx" then
      match docx_convert E (getvalue file) with
      | Ok out => (Ok pdf_path, on_files (fun fs => <[pdf_path := out]> fs) w0)
      | Raise e => (Raise e, w0)
      end
    else
      (Ok pdf_path,
       on_files (fun fs => <[pdf_path := getvalue file]> (delete tmp fs)) w0).
Proof.
  intros tmp pdf_path w0.
  assert (read_file tmp w0 = (Ok (getvalue file), w0)) as R.
  { unfold read_file, w0. simpl. by rewrite lookup_insert_eq. }
  unfold convert_to_pdf, bind, named_temporary_file.
  fold (extension E file). fold tmp. fold w0. fold pdf_path.
  destruct (String.eqb (extension E file) ".pptx").
  { unfold converted, bind. rewrite R. unfold lift.
    by destruct (pptx_save E (getvalue file)). }
  destruct (String.eqb (extension E file) ".docx").
  { unfold converted, bind. rewrite R. unfold lift.
    by destruct (docx_convert E (getvalue file)). }
  unfold os_rename, bind. by rewrite R.
Qed.

(** X5. When [convert_to_pdf] returns a path, the path is that of the
    temporary copy with [.pdf] added and the file is there, so that opening
    it cannot fail; its bytes are the uploaded bytes when the extension is
    neither [.pptx] nor [.docx] (nothing is converted) and what the
    converter wrote otherwise, and then the temporary copy is there too.
    The upload handler removes neither: the files are still there when it
    has ended, normally or not. *)
Theorem convert_to_pdf_leaves_files E (file : uploaded_file) (w w' : world)
    (pdf_path : string) :
  convert_to_pdf E file w = (Ok pdf_path, w') ->
  let tmp := tempname E (files w) (extension E file) in
  pdf_path = (tmp ++ ".pdf")%string /\
  exists bytes,
    read_file pdf_path w' = (Ok bytes, w') /\
    (extension E file <> ".pptx" -> extension E file <> ".docx" ->
     bytes = getvalue file) /\
    (extension E file = ".pptx" ->
     pptx_save E (getvalue file) = Ok bytes /\
     files w' !! tmp = Some (getvalue file)) /\
    (extension E file = ".docx" ->
     docx_convert E (getvalue file) = Ok bytes /\
     files w' !! tmp = Some (getvalue file)) /\
    forall inp,
      uploaded inp = Some file -> process_clicked inp = true ->
      type file <> "application/pdf" ->
      files (snd (process_file E inp w)) = files w'.
Proof.
  intros C tmp.
  assert (forall bytes,
            read_file pdf_path w' = (Ok bytes, w') ->
            forall inp,
              uploaded inp = Some file -> process_clicked inp = true ->
              type file <> "application/pdf" ->
              files (snd (process_file E inp w)) = files w') as Handler.
  { intros bytes R inp U P T. rewrite (process_file_run _ _ _ _ U P).
    unfold load_text.
    destruct (String.eqb_spec (type file) "application/pdf") as [|_]; [done|].
    unfold bind at 1. unfold bind at 1. rewrite C, R, extract_text_run.
    by destruct (match pdf_pages E bytes with
                 | Ok pages => concat_pages pages EmptyString
                 | Raise e => Raise e
                 end). }
  rewrite convert_to_pdf_run in C. cbv zeta in C. fold tmp in C.
  pose proof (pdf_path_fresh tmp) as Fresh.
  destruct (String.eqb_spec (extension E file) ".pptx") as [Hp|Hp].
  { destruct (pptx_save E (getvalue file)) as [out|e] eqn:S; [|done].
    injection C as <- <-. split; [done|].
    assert (read_file (tmp ++ ".pdf")%string
              (on_files (fun fs => <[(tmp ++ ".pdf")%string := out]> fs)
                 (on_files (fun fs => <[tmp := getvalue file]> fs) w))
            = (Ok out, on_files (fun fs => <[(tmp ++ ".pdf")%string := out]> fs)
                         (on_files (fun fs => <[tmp := getvalue file]> fs) w))) as R.
    { unfold read_file. simpl. by rewrite lookup_insert_eq. }
    exists out. split; [done|]. split; [done|]. split; [|split].
    - intros _. split; [done|]. simpl.
      by rewrite lookup_insert_ne, lookup_insert_eq.
    - intros Hd. rewrite Hd in Hp. discriminate Hp.
    - by apply Handler with out. }
  destruct (String.eqb_spec (extension E file) ".docx") as [Hd|Hd].
  { destruct (docx_convert E (getvalue file)) as [out|e] eqn:S; [|done].
    injection C as <- <-. split; [done|].
    assert (read_file (tmp ++ ".pdf")%string
              (on_files (fun fs => <[(tmp ++ ".pdf")%string := out]> fs)
                 (on_files (fun fs => <[tmp := getvalue file]> fs) w))
            = (Ok out, on_files (fun fs => <[(tmp ++ ".pdf")%string := out]> fs)
                         (on_files (fun fs => <[tmp := getvalue file]> fs) w))) as R.
    { unfold read_file. simpl. by rewrite lookup_insert_eq. }
    exists out. split; [done|]. split; [done|]. split; [|split].
    - done.
    - intros _. split; [done|]. simpl.
      by rewrite lookup_insert_ne, lookup_insert_eq.
    - by apply Handler with out. }
  injection C as <- <-. split; [done|].
  assert (read_file (tmp ++ ".pdf")%string
            (on_files (fun fs => <[(tmp ++ ".pdf")%string := getvalue file]>
                                   (delete tmp fs))
               (on_files (fun fs => <[tmp := getvalue file]> fs) w))
          = (Ok (getvalue file),
             on_files (fun fs => <[(tmp ++ ".pdf")%string := getvalue file]>
                                   (delete tmp fs))
               (on_files (fun fs => <[tmp := getvalue file]> fs) w))) as R.
  { unfold read_file. simpl. by rewrite lookup_insert_eq. }
  exists (getvalue file). split; [done|]. split; [done|]. split; [done|].
  split; [done|]. by apply Handler with (getvalue file).
Qed.

Lemma convert_to_pdf_leaves_files_witness :
  let E := example_env (Failure "Connection refused") in
  let w' := snd (convert_to_pdf E scan_pdf fresh_world) in
  "/tmp/tmpk3v9x2.pdf.pdf"
    = (tempname E (files fresh_world) (extension E scan_pdf) ++ ".pdf")%string /\
  exists bytes,
    read_file "/tmp/tmpk3v9x2.pdf.pdf" w' = (Ok bytes, w') /\
    (extension E scan_pdf <> ".pptx" -> extension E scan_pdf <> ".docx" ->
     bytes = getvalue scan_pdf) /\
    (extension E scan_pdf = ".pptx" ->
     pptx_save E (getvalue scan_pdf) = Ok bytes /\
     files w' !! tempname E (files fresh_world) (extension E scan_pdf)
       = Some (getvalue scan_pdf)) /\
    (extension E scan_pdf = ".docx" ->
     docx_convert E (getvalue scan_pdf) = Ok bytes /\
     files w' !! tempname E (files fresh_world) (extension E scan_pdf)
       = Some (getvalue scan_pdf)) /\
    forall inp,
      uploaded inp = Some scan_pdf -> process_clicked inp = true ->
      type scan_pdf <> "application/pdf" ->
      files (snd (process_file E inp fresh_world)) = files w'.
Proof.
  intros E w'.
  apply (convert_to_pdf_leaves_files E scan_pdf fresh_world w'
           "/tmp/tmpk3v9x2.pdf.pdf").
  reflexivity.
Defined.

Lemma load_text_pdf E file w :
  type file = "application/pdf" ->
  load_text E file w = extract_text_from_pdf E (getvalue file) w.
Proof. intros T. unfold load_text. by rewrite T. Qed.

Lemma load_text_renamed E file w :
  type file <> "application/pdf" ->
  extension E file <> ".pptx" -> extension E file <> ".docx" ->
  let tmp := tempname E (files w) (extension E file) in
  load_text E file w =
    extract_text_from_pdf E (getvalue file)
      (on_files (fun fs => <[(tmp ++ ".pdf")%string := getvalue file]>
                             (delete tmp fs))
         (on_files (fun fs => <[tmp := getvalue file]> fs) w)).
Proof.
  intros T Hp Hd tmp. unfold load_text.
  destruct (String.eqb_spec (type file) "application/pdf") as [|_]; [done|].
  unfold bind at 1. unfold bind at 1. rewrite convert_to_pdf_run. cbv zeta.
  destruct (String.eqb_spec (extension E file) ".pptx") as [|_]; [done|].
  destruct (String.eqb_spec (extension E file) ".docx") as [|_]; [done|].
  unfold read_file at 1. cbn [files on_files]. by rewrite lookup_insert_eq.
Qed.

(** X6. For an upload whose extension is neither [.pptx] nor [.docx], the
    declared MIME type makes no difference to what is read: the handler
    returns or raises the same, with the same session state and page, as for
    the same bytes declared as a PDF. *)
Theorem process_file_ignores_type E (inp : inputs) (file : uploaded_file)
    (w : world) :
  extension E file <> ".pptx" -> extension E file <> ".docx" ->
  let declared := process_file E (with_upload file inp) w in
  let as_a_pdf := process_file E (with_upload (as_pdf file) inp) w in
  fst declared = fst as_a_pdf /\
  session (snd declared) = session (snd as_a_pdf) /\
  page (snd declared) = page (snd as_a_pdf).
Proof.
  intros Hp Hd declared as_a_pdf. subst declared as_a_pdf.
  destruct (process_clicked inp) eqn:P;
    [|by rewrite !process_file_idle by (by right)].
  rewrite (process_file_run E (with_upload file inp) file w eq_refl P),
    (process_file_run E (with_upload (as_pdf file) inp) (as_pdf file) w eq_refl P).
  rewrite (load_text_pdf E (as_pdf file) w eq_refl).
  change (getvalue (as_pdf file)) with (getvalue file).
  destruct (String.eqb_spec (type file) "application/pdf") as [T|T].
  - by rewrite (load_text_pdf E file w T).
  - rewrite (load_text_renamed E file w T Hp Hd). rewrite !extract_text_run.
    by destruct (match pdf_pages E (getvalue file) with
                 | Ok pages => concat_pages pages EmptyString
                 | Raise e => Raise e
                 end).
Qed.

Lemma process_file_ignores_type_witness :
  let E := example_env (Failure "Connection refused") in
  let inp := {| uploaded := None; process_clicked := true;
                prompt_text := EmptyString; number_input := 5;
                content_type := Quiz; generate_clicked := false;
                radio := fun _ _ => None; check_clicked := false |} in
  let declared := process_file E (with_upload scan_pdf inp) fresh_world in
  let as_a_pdf := process_file E (with_upload (as_pdf scan_pdf) inp) fresh_world in
  fst declared = fst as_a_pdf /\
  session (snd declared) = session (snd as_a_pdf) /\
  page (snd declared) = page (snd as_a_pdf).
Proof.
  intros E inp.
  apply (process_file_ignores_type E inp scan_pdf fresh_world); discriminate.
Defined.

End UploadFacts.

(** ** More on the generation handler *)

Module GenerateMore.
Import Py Eff App Notions Frames EffFacts ParseFacts InferFacts GenerateFacts KeepFacts.
Local Open Scope list_scope.

#[local] Arguments Json.loads : simpl never.
#[local] Arguments loads : simpl never.
#[local] Arguments subscript : simpl never.
#[local] Arguments request_data : simpl never.
#[local] Arguments quiz_task : simpl never.
#[local] Arguments summary_task : simpl never.
#[local] Arguments str_or : simpl never.

(** X7. On a generation action of kind Quiz, when the server answers 200
    with a body that [json.loads] decodes, whose [response] field is a
    non-empty string that [json.loads] decodes in its turn (both within
    the limits of the interpreter), the handler ends normally, the quiz is
    what that string decodes to, the answer sheet is empty, one request has
    been sent and nothing is added to the page; the rest of the session is
    as it was. *)
Theorem generate_installs_decoded_quiz E (inp : inputs) (w : world)
    (text reply : string) (body q : value) :
  let context := context_of (session w) in
  let data := request_data context (quiz_task context (number_input inp)) in
  content_type inp = Quiz ->
  post E data = Response 200 text ->
  loads E in_query_ollama text = Ok body ->
  subscript body (PStr "response") = Ok (PStr reply) ->
  reply <> EmptyString ->
  loads E in_generate_quiz reply = Ok q ->
  generate E inp w =
    (Ok tt,
     on_session (with_user_answers ∅) (on_session (with_quiz q) (posted data w))).
Proof.
  intros context data Q P L S Hne D. subst context data.
  rewrite (generate_run_quiz _ _ _ Q), generate_quiz_run, query_ollama_run.
  cbv zeta. rewrite P. simpl. rewrite L, S, parse_str, D.
  by destruct (String.eqb_spec reply EmptyString).
Qed.

Lemma generate_installs_decoded_quiz_witness :
  let E := example_env
             (Response 200
                (json_text "{'response': '{\'questions\': []}'}")) in
  let inp := {| uploaded := None; process_clicked := false;
                prompt_text := "past tense"; number_input := 3;
                content_type := Quiz; generate_clicked := true;
                radio := fun _ _ => None; check_clicked := false |} in
  let w := on_session (with_custom_prompt "past tense") (quiz_world {[0 := Some "B"]}) in
  generate E inp w =
    (Ok tt,
     on_session (with_user_answers ∅)
       (on_session (with_quiz (PDict [("questions", PList [])]))
          (posted (request_data (context_of (session w))
                     (quiz_task (context_of (session w)) (number_input inp))) w))).
Proof.
  intros E inp w.
  apply (generate_installs_decoded_quiz E inp w
           (json_text "{'response': '{\'questions\': []}'}")
           (json_text "{'questions': []}")
           (PDict [("response", PStr (json_text "{'questions': []}"))])
           (PDict [("questions", PList [])]));
    try reflexivity.
  discriminate.
Defined.

(** X8. When the server answers 200 and [json.loads] does not decode the
    body, or decodes it to a value that has no [response] field to take,
    the exception ([JSONDecodeError], [RecursionError] or [ValueError] in
    the first case, [KeyError] or [TypeError] in the second) is caught
    nowhere: the handler raises it, for a quiz as for a summary, the
    request has been sent, nothing is shown and the session is as it was,
    with the earlier quiz, answers and summary. *)
Theorem generate_raises_on_unreadable_reply E (inp : inputs) (w : world)
    (text : string) (e : exn) :
  let context := context_of (session w) in
  let data := request_data context
                (task_for (content_type inp) context (number_input inp)) in
  post E data = Response 200 text ->
  reply_unreadable E text e ->
  generate E inp w = (Raise e, posted data w).
Proof.
  intros context data P U. subst context data. unfold reply_unreadable in U.
  destruct (content_type inp) eqn:Q; simpl in P.
  - rewrite (generate_run_quiz _ _ _ Q), generate_quiz_run, query_ollama_run.
    cbv zeta. rewrite P. simpl.
    destruct (loads E in_query_ollama text) as [body|x]; [by rewrite U|by subst e].
  - rewrite (generate_run_summary _ _ _ Q). unfold summarize_content, bind.
    cbv zeta. rewrite query_ollama_run. cbv zeta. rewrite P. simpl.
    destruct (loads E in_query_ollama text) as [body|x]; [by rewrite U|by subst e].
Qed.

Lemma generate_raises_on_unreadable_reply_witness :
  let E := example_env (Response 200 (json_text "{'error': 'model not found'}")) in
  let inp := {| uploaded := None; process_clicked := false;
                prompt_text := "past tense"; number_input := 3;
                content_type := Quiz; generate_clicked := true;
                radio := fun _ _ => None; check_clicked := false |} in
  let w := on_session (with_custom_prompt "past tense") (quiz_world {[0 := Some "B"]}) in
  generate E inp w =
    (Raise KeyError,
     posted (request_data (context_of (session w))
               (task_for (content_type inp) (context_of (session w))
                  (number_input inp))) w).
Proof.
  intros E inp w.
  apply (generate_raises_on_unreadable_reply E inp w
           (json_text "{'error': 'model not found'}") KeyError);
    reflexivity.
Defined.

(** X9. On a generation action of kind Quiz, when the [response] field is
    a value that is true but is not a string (a number, a list, an
    object), [json.loads] raises [TypeError], which [generate_quiz] does not
    catch: the handler raises it, with nothing shown and the session as it
    was. *)
Theorem generate_quiz_raises_on_non_string_reply E (inp : inputs) (w : world)
    (text : string) (body reply : value) :
  let context := context_of (session w) in
  let data := request_data context (quiz_task context (number_input inp)) in
  content_type inp = Quiz ->
  post E data = Response 200 text ->
  loads E in_query_ollama text = Ok body ->
  subscript body (PStr "response") = Ok reply ->
  truthy reply = true ->
  (forall s, reply <> PStr s) ->
  generate E inp w = (Raise TypeError, posted data w).
Proof.
  intros context data Q P L S T N. subst context data.
  rewrite (generate_run_quiz _ _ _ Q), generate_quiz_run, query_ollama_run.
  cbv zeta. rewrite P. simpl. rewrite L, S. unfold parse. rewrite T.
  destruct reply; try done. by destruct (N s).
Qed.

Lemma generate_quiz_raises_on_non_string_reply_witness :
  let E := example_env (Response 200 (json_text "{'response': {'questions': [1]}}")) in
  let inp := {| uploaded := None; process_clicked := false;
                prompt_text := "past tense"; number_input := 3;
                content_type := Quiz; generate_clicked := true;
                radio := fun _ _ => None; check_clicked := false |} in
  let w := on_session (with_custom_prompt "past tense") fresh_world in
  generate E inp w =
    (Raise TypeError,
     posted (request_data (context_of (session w))
               (quiz_task (context_of (session w)) (number_input inp))) w).
Proof.
  intros E inp w.
  apply (generate_quiz_raises_on_non_string_reply E inp w
           (json_text "{'response': {'questions': [1]}}")
           (PDict [("response", PDict [("questions", PList [PInt 1])])])
           (PDict [("questions", PList [PInt 1])]));
    try reflexivity.
  discriminate.
Defined.

(** *** What a generation leaves as it is *)

(** X10. Whatever the server answers and however the handler ends, a
    generation action never changes the document text or the custom
    prompt; of kind Summary it never changes the quiz or the answer sheet,
    and of kind Quiz it never changes the summary: the two artifacts live
    side by side. *)
Theorem generate_touches_only_its_artifact E (inp : inputs) (w : world) :
  same_sources w (snd (generate E inp w)) /\
  (content_type inp = Summary -> same_quiz w (snd (generate E inp w))) /\
  (content_type inp = Quiz -> same_summary w (snd (generate E inp w))).
Proof.
  split; [|split].
  - by apply (keeps_generate same_sources E inp).
  - intros Q. apply (keeps_generate same_quiz E inp); try done.
    by rewrite Q.
  - intros Q. apply (keeps_generate same_summary E inp); try done.
    by rewrite Q.
Qed.

Lemma generate_touches_only_its_artifact_witness :
  let E := example_env (Response 200 (json_text "{'response': 'In short.'}")) in
  let inp := {| uploaded := None; process_clicked := false;
                prompt_text := "past tense"; number_input := 3;
                content_type := Summary; generate_clicked := true;
                radio := fun _ _ => None; check_clicked := false |} in
  let w := on_session (with_custom_prompt "past tense") (quiz_world {[0 := Some "B"]}) in
  same_quiz w (snd (generate E inp w)).
Proof.
  intros E inp w.
  apply (proj1 (proj2 (generate_touches_only_its_artifact E inp w))).
  reflexivity.
Defined.

(** X11. On a generation action of kind Summary, when the server answers
    200 with a JSON body whose [response] field is true (a non-empty
    string, but also a number or a list), the summary becomes that value as
    it is, one request has been sent, nothing is added to the page and the
    rest of the session is as it was. *)
Theorem generate_stores_summary E (inp : inputs) (w : world) (text : string)
    (body v : value) :
  let context := context_of (session w) in
  let data := request_data context (summary_task context) in
  content_type inp = Summary ->
  post E data = Response 200 text ->
  loads E in_query_ollama text = Ok body ->
  subscript body (PStr "response") = Ok v ->
  truthy v = true ->
  generate E inp w = (Ok tt, on_session (with_summary v) (posted data w)).
Proof.
  intros context data Q P L S T. subst context data.
  rewrite (generate_run_summary _ _ _ Q). unfold summarize_content, bind.
  cbv zeta. rewrite query_ollama_run. cbv zeta. rewrite P. simpl.
  by rewrite L, S, T.
Qed.

Lemma generate_stores_summary_witness :
  let E := example_env (Response 200 (json_text "{'response': 'In short.'}")) in
  let inp := {| uploaded := None; process_clicked := false;
                prompt_text := "past tense"; number_input := 3;
                content_type := Summary; generate_clicked := true;
                radio := fun _ _ => None; check_clicked := false |} in
  let w := on_session (with_custom_prompt "past tense") fresh_world in
  generate E inp w =
    (Ok tt,
     on_session (with_summary (PStr "In short."))
       (posted (request_data (context_of (session w))
                  (summary_task (context_of (session w)))) w)).
Proof.
  intros E inp w.
  apply (generate_stores_summary E inp w
           (json_text "{'response': 'In short.'}")
           (PDict [("response", PStr "In short.")]) (PStr "In short."));
    reflexivity.
Defined.

(** X12. On a generation action of kind Summary that fails (the request
    does not get through, the server answers with another status than 200,
    or the generated value is empty), the handler ends normally, the last
    message on the page is that the summary failed, and the summary is
    [None]: an earlier summary is lost, and the page that follows shows
    none. *)
Theorem failed_summary_clears_summary E (inp : inputs) (w : world) :
  content_type inp = Summary ->
  summary_fails E (context_of (session w)) ->
  exists errors w',
    generate E inp w = (Ok tt, w') /\
    summary (session w') = PNone /\
    page w' = page w ++ errors ++ [st_error summary_failed] /\
    truthy (summary (session w')) = false.
Proof.
  intros Q F. rewrite (generate_run_summary _ _ _ Q).
  unfold summarize_content, bind. cbv zeta. rewrite query_ollama_run. cbv zeta.
  destruct F as [detail P|status text P Hne|text body reply P L S T]; rewrite P.
  - simpl. eexists [_], _. split; [done|]. simpl. by rewrite <- app_assoc.
  - destruct (Z.eqb_spec status 200); [done|].
    simpl. eexists [_], _. split; [done|]. simpl. by rewrite <- app_assoc.
  - simpl. rewrite L, S, T. by eexists [], _.
Qed.

Lemma failed_summary_clears_summary_witness :
  let E := example_env (Response 503 "loading model") in
  let inp := {| uploaded := None; process_clicked := false;
                prompt_text := "past tense"; number_input := 3;
                content_type := Summary; generate_clicked := true;
                radio := fun _ _ => None; check_clicked := false |} in
  let w := on_session (with_summary (PStr "In short."))
             (on_session (with_custom_prompt "past tense") fresh_world) in
  exists errors w',
    generate E inp w = (Ok tt, w') /\
    summary (session w') = PNone /\
    page w' = page w ++ errors ++ [st_error summary_failed] /\
    truthy (summary (session w')) = false.
Proof.
  intros E inp w.
  apply (failed_summary_clears_summary E inp w eq_refl).
  apply (summary_server_fails _ _ 503%Z "loading model"); [reflexivity|lia].
Defined.

End GenerateMore.

(** ** The form and the score *)

Module RenderFacts.
Import Py Eff App Notions Frames EffFacts CheckFacts KeepFacts.
Local Open Scope list_scope.

#[local] Arguments subscript : simpl never.
#[local] Arguments String.eqb : simpl never.

Lemma option_keys_of q options ks :
  subscript q (PStr "options") = Ok options -> keys options = Ok ks ->
  option_keys q = ks.
Proof. intros Ho Hk. unfold option_keys. by rewrite Ho, Hk. Qed.

(** The form over questions that can be shown: it ends normally, adds to
    the page, and changes the answer sheet at the indices of the questions
    only, where it puts what the radios return. *)
Lemma render_questions_run inp (questions : list value) i w :
  Forall renderable questions ->
  exists form answers,
    render_questions inp i questions w =
      (Ok tt, on_session (with_user_answers answers) (shown form w)) /\
    (forall k q, questions !! k = Some q ->
       answers !! (i + k) = Some (radio inp (i + k) (option_keys q))) /\
    (forall j, j < i \/ i + length questions <= j ->
       answers !! j = user_answers (session w) !! j).
Proof.
  revert i w. induction questions as [|q rest IH]; intros i w HF.
  - exists [], (user_answers (session w)). split; [|by split].
    destruct w as [[] ? ? ?]. unfold shown, on_page, on_session. simpl.
    by rewrite app_nil_r.
  - inversion HF as [|? ? (text & options & ks & Ht & Ho & Hk) HF']; subst.
    cbn [render_questions]. unfold bind, lift, show, set_session.
    rewrite Ht, Ho, Hk. cbn [fst snd].
    set (w1 := on_session _ _).
    destruct (IH (S i) w1 HF') as (form & answers & Run & In & Out).
    rewrite Run.
    exists ([show_question (i + 1) text; show_radio (i + 1) ks] ++ form), answers.
    split; [|split].
    + f_equal. unfold w1, on_session, shown, on_page. simpl.
      by rewrite <- !app_assoc.
    + intros [|k] q' Hq; simpl in Hq.
      * injection Hq as <-. rewrite Nat.add_0_r, Out by lia.
        unfold w1. simpl. rewrite lookup_insert_eq.
        by rewrite (option_keys_of _ _ _ Ho Hk).
      * replace (i + S k) with (S i + k) by lia. by apply In.
    + intros j Hj. simpl in Hj. rewrite Out by lia.
      unfold w1. simpl. apply lookup_insert_ne. lia.
Qed.

(** X13. Over questions that each have a text and a dictionary of options,
    the form ends normally; afterwards the answer sheet holds, at the index
    of every question, what the radio of that question returned in this run,
    whatever it held there before, and is unchanged at every other index;
    the rest of the session is as it was. *)
Theorem render_questions_records_selections (inp : inputs)
    (questions : list value) (w : world) :
  Forall renderable questions ->
  exists form answers,
    render_questions inp 0 questions w =
      (Ok tt, on_session (with_user_answers answers) (shown form w)) /\
    (forall k q, questions !! k = Some q ->
       answers !! k = Some (radio inp k (option_keys q))) /\
    (forall j, length questions <= j ->
       answers !! j = user_answers (session w) !! j).
Proof.
  intros HF.
  destruct (render_questions_run inp questions 0 w HF)
    as (form & answers & Run & In & Out).
  exists form, answers. split; [done|]. split.
  - intros k q Hq. by apply (In k q).
  - intros j Hj. apply Out. lia.
Qed.

Lemma render_questions_records_selections_witness :
  let inp := idle "past tense" in
  let w := quiz_world {[0 := Some "B"; 4 := Some "D"]} in
  exists form answers,
    render_questions inp 0 [one_question] w =
      (Ok tt, on_session (with_user_answers answers) (shown form w)) /\
    (forall k q, [one_question] !! k = Some q ->
       answers !! k = Some (radio inp k (option_keys q))) /\
    (forall j, length [one_question] <= j ->
       answers !! j = user_answers (session w) !! j).
Proof.
  intros inp w.
  apply (render_questions_records_selections inp [one_question] w).
  constructor; [|constructor].
  exists (PStr "Q1"),
         (PDict [("A", PStr "x"); ("B", PStr "y"); ("C", PStr "z"); ("D", PStr "w")]),
         ["A"; "B"; "C"; "D"].
  repeat split; reflexivity.
Defined.

(** *** The score of the selections *)

Lemma question_of_renderable v q : question_of v q -> renderable v.
Proof.
  intros H. destruct (question_of_subscripts v q H) as (Ht & Ho & _ & _ & Hk).
  eexists _, _, _. by repeat split.
Qed.

Lemma question_of_option_keys v q :
  question_of v q -> option_keys v = map label_name (listed q).
Proof.
  intros H. destruct (question_of_subscripts v q H) as (_ & Ho & _ & _ & Hk).
  by apply (option_keys_of _ _ _ Ho Hk).
Qed.

(** [render], step by step. *)
Lemma render_run inp w :
  let summary_part w :=
    if truthy (summary (session w))
    then (Ok tt, shown [st_write (summary (session w))] w)
    else (Ok tt, w) in
  render inp w =
    if truthy (quiz (session w)) then
      match fst (quiz_questions w) with
      | Ok questions =>
          match render_questions inp 0 questions w with
          | (Ok _, w1) =>
              match (if check_clicked inp then check_answers else ret tt) w1 with
              | (Ok _, w2) => summary_part w2
              | (Raise e, w2) => (Raise e, w2)
              end
          | (Raise e, w1) => (Raise e, w1)
          end
      | Raise e => (Raise e, w)
      end
    else summary_part w.
Proof.
  intros summary_part. unfold render. unfold bind at 1. unfold get_session at 1.
  destruct (truthy (quiz (session w))).
  - unfold bind at 1. unfold bind at 1. rewrite quiz_questions_run. cbn [fst snd].
    destruct (match subscript (quiz (session w)) (PStr "questions") with
              | Ok v => iterate v | Raise e => Raise e end) as [questions|e];
      [|done].
    unfold bind at 1.
    destruct (render_questions inp 0 questions w) as [[[]|e] w1]; [|done].
    destruct ((if check_clicked inp then check_answers else ret tt) w1)
      as [[[]|e] w2]; [|done].
    unfold bind, get_session, summary_part. cbn [fst snd].
    by destruct (truthy (summary (session w2))).
  - unfold bind, get_session, ret, summary_part. cbn [fst snd].
    by destruct (truthy (summary (session w))).
Qed.

(** X14. For a quiz of the data model, a page rendered with the check
    button pressed ends normally and shows a score line whose total is the
    number of questions and whose score is the number of questions for
    which the radio, offered the labels of the question, returned in this
    same run the label of the correct answer: the score is that of the
    selections on the page, whatever the answer sheet held before the
    run. *)
Theorem render_scores_the_selections (inp : inputs) (w : world)
    (qs : list question) :
  quiz_of (quiz (session w)) qs ->
  check_clicked inp = true ->
  exists added,
    fst (render inp w) = Ok tt /\
    page (snd (render inp w)) = page w ++ added /\
    show_score (matching_selections inp qs) (length qs) ∈ added.
Proof.
  intros I C. destruct (quiz_of_questions w qs I) as (T & items & Q & F).
  assert (Forall renderable items) as HR.
  { apply Forall_lookup. intros i v Hv.
    destruct (Forall2_lookup_l _ _ _ _ _ F Hv) as (q & _ & Hq).
    by apply (question_of_renderable v q). }
  pose proof (quiz_of_answerable items qs F) as HA.
  destruct (render_questions_run inp items 0 w HR)
    as (form & answers & Run & In & _).
  set (w1 := on_session (with_user_answers answers) (shown form w)) in Run.
  assert (fst (quiz_questions w1) = Ok items) as Q1
    by (by rewrite quiz_questions_run in Q |- *).
  destruct (check_answers_total w1 items Q1 HA) as (feedback & Check & _ & _).
  assert (correct_count (user_answers (session w1)) items
          = matching_selections inp qs) as Count.
  { rewrite (correct_count_matches _ _ _ F).
    unfold matching_entries, matching_selections. apply filter_length_agree.
    intros i _. unfold entry_matches, selection_matches.
    destruct (qs !! i) as [q|] eqn:Hq; [|done].
    destruct (Forall2_lookup_r _ _ _ _ _ F Hq) as (v & Hv & Hvq).
    pose proof (In i v Hv) as Hi. simpl in Hi.
    rewrite (question_of_option_keys v q Hvq) in Hi.
    unfold w1. cbn [session on_session user_answers with_user_answers].
    rewrite Hi. apply bool_decide_ext. split; [by intros [= ->]|by intros ->]. }
  rewrite Count, (Forall2_length _ _ _ F) in Check.
  rewrite render_run. cbv zeta. rewrite T, Q, Run, C, Check.
  destruct (truthy (summary _)).
  - eexists (form ++ feedback ++ [show_score _ _] ++ [st_write _]).
    split; [done|]. split.
    + unfold shown, on_page. simpl. by rewrite <- !app_assoc.
    + set_solver.
  - eexists (form ++ feedback ++ [show_score _ _]).
    split; [done|]. split.
    + unfold shown, on_page. simpl. by rewrite <- !app_assoc.
    + set_solver.
Qed.

Lemma render_scores_the_selections_witness :
  let inp := {| uploaded := None; process_clicked := false;
                prompt_text := "past tense"; number_input := 5;
                content_type := Quiz; generate_clicked := false;
                radio := fun _ ks => nth_error ks 1; check_clicked := true |} in
  let w := quiz_world {[0 := Some "A"]} in
  exists added,
    fst (render inp w) = Ok tt /\
    page (snd (render inp w)) = page w ++ added /\
    show_score 1 1 ∈ added.
Proof.
  intros inp w. apply (render_scores_the_selections inp w [question_one]).
  - exists [("questions", PList [one_question])], [one_question].
    split; [reflexivity|]. split; [reflexivity|].
    constructor; [|constructor]. split; [reflexivity|].
    eexists. split; [reflexivity|]. repeat split; reflexivity.
  - reflexivity.
Defined.

End RenderFacts.

(** ** A whole run *)

Module ScriptFacts.
Import Py Eff App Notions Frames EffFacts GenerateFacts CheckFacts KeepFacts.
Local Open Scope list_scope.

#[local] Arguments subscript : simpl never.
#[local] Arguments String.eqb : simpl never.
#[local] Arguments str_or : simpl never.
#[local] Arguments request_data : simpl never.

Lemma check_loop_of_session (questions : list value) i score s :
  exists r added,
    forall w, session w = s -> check_loop i questions score w = (r, shown added w).
Proof.
  revert i score. induction questions as [|q rest IH]; intros i score.
  - exists (Ok score), []. intros w _. by rewrite shown_nil.
  - destruct (subscript q (PStr "correct_answer")) as [c|e] eqn:Hc.
    2:{ exists (Raise e), []. intros w _. cbn [check_loop]. unfold bind.
        by rewrite check_question_run, Hc, shown_nil. }
    destruct (answer_eq (answers_get (user_answers s) i) c) eqn:A.
    { destruct (IH (S i) (score + 1)) as (r & added & Run).
      exists r, (show_correct (i + 1) :: added). intros w <-.
      cbn [check_loop]. unfold bind. rewrite check_question_run, Hc, A.
      rewrite Run by done. by rewrite shown_shown. }
    destruct (subscript q (PStr "options")) as [o|e] eqn:Ho.
    2:{ exists (Raise e), []. intros w <-. cbn [check_loop]. unfold bind.
        by rewrite check_question_run, Hc, A, Ho, shown_nil. }
    destruct (subscript o c) as [t|e] eqn:Ht.
    2:{ exists (Raise e), []. intros w <-. cbn [check_loop]. unfold bind.
        by rewrite check_question_run, Hc, A, Ho, Ht, shown_nil. }
    destruct (IH (S i) score) as (r & added & Run).
    exists r, (show_incorrect (i + 1) c t :: added). intros w <-.
    cbn [check_loop]. unfold bind. rewrite check_question_run, Hc, A, Ho, Ht.
    rewrite Run by done. by rewrite shown_shown.
Qed.

(** X15. What the check returns or raises and what it adds to the page are
    determined by the session state alone, and the check changes nothing but
    the page: checking again, in the same session, gives the same verdicts
    and the same score. *)
Theorem check_answers_depends_on_session_only (s : session_state) :
  exists r added,
    forall w, session w = s ->
      check_answers w = (r, shown added w) /\
      check_answers (shown added w) = (r, shown added (shown added w)).
Proof.
  assert (exists r added,
            forall w, session w = s -> check_answers w = (r, shown added w)) as K.
  { destruct (match subscript (quiz s) (PStr "questions") with
              | Ok v => iterate v | Raise e => Raise e end) as [questions|e] eqn:Q.
    - destruct (check_loop_of_session questions 0 0 s) as (r & added & Run).
      destruct r as [score|e].
      + exists (Ok tt), (added ++ [show_score score (length questions)]).
        intros w <-. unfold check_answers. unfold bind at 1.
        rewrite quiz_questions_run, Q. unfold bind at 1. rewrite Run by done.
        unfold bind. rewrite quiz_questions_run. cbn [session shown on_page].
        rewrite Q. unfold show. by rewrite shown_shown.
      + exists (Raise e), added. intros w <-. unfold check_answers.
        unfold bind at 1. rewrite quiz_questions_run, Q. unfold bind at 1.
        by rewrite Run.
    - exists (Raise e), []. intros w <-. unfold check_answers. unfold bind at 1.
      by rewrite quiz_questions_run, Q, shown_nil. }
  destruct K as (r & added & K). exists r, added. intros w Hw. split.
  - by apply K.
  - apply K. by rewrite <- Hw.
Qed.

(** *** Requests *)

Lemma context_nonempty s :
  truthy (PStr (pdf_text s)) || truthy (PStr (custom_prompt s)) = true ->
  context_of s <> EmptyString /\
  (context_of s = custom_prompt s \/ custom_prompt s = EmptyString).
Proof.
  unfold context_of, str_or. simpl.
  destruct (String.eqb_spec (custom_prompt s) EmptyString) as [->|Hc]; simpl.
  - destruct (String.eqb_spec (pdf_text s) EmptyString); simpl; [done|].
    intros _. by split; [|right].
  - intros _. by split; [|left].
Qed.

(** X16. A run sends at most one request, and it is known when: a run
    that the upload handler ends with an exception sends none; a run that
    gets past it sends one exactly when the Generate button is pressed and
    the context is not empty, where the context is the text of the prompt
    box when there is one and otherwise the document text as the upload
    handler left it. The request sent is made from that context. *)
Theorem script_sends_at_most_one_request E (inp : inputs) (w : world) :
  (forall e w1,
     process_file E inp w = (Raise e, w1) ->
     sent (snd (script E inp w)) = sent w) /\
  (forall w1,
     process_file E inp w = (Ok tt, w1) ->
     let context :=
       if String.eqb (prompt_text inp) EmptyString
       then pdf_text (session w1) else prompt_text inp in
     sent (snd (script E inp w)) =
       if generate_clicked inp && negb (String.eqb context EmptyString)
       then sent w ++ [request_data context
                         (task_for (content_type inp) context (number_input inp))]
       else sent w).
Proof.
  pose proof (keeps_process_file same_sent E inp
                ltac:(done) ltac:(done) ltac:(done) w) as K1.
  unfold same_sent in K1. split.
  - intros e w1 P. rewrite script_run, P. by rewrite P in K1.
  - intros w1 P context. rewrite script_run, P. rewrite P in K1. cbn [snd] in K1.
    cbv zeta. set (w2 := on_session (with_custom_prompt (prompt_text inp)) w1).
    assert (context_of (session w2) = context) as HC.
    { unfold context_of, str_or, context. cbn.
      by destruct (String.eqb (prompt_text inp) EmptyString). }
    assert (truthy (PStr (pdf_text (session w2)))
            || truthy (PStr (custom_prompt (session w2)))
            = negb (String.eqb context EmptyString)) as G.
    { unfold context. cbn.
      destruct (String.eqb_spec (prompt_text inp) EmptyString) as [Q|Q]; cbn.
      - by rewrite orb_false_r.
      - rewrite orb_true_r. by destruct (String.eqb_spec (prompt_text inp) EmptyString). }
    rewrite G.
    assert (forall w3, sent (snd (render inp w3)) = sent w3) as KR.
    { intros w3. by apply (keeps_render same_sent inp). }
    destruct (negb (String.eqb context EmptyString));
      [|by rewrite andb_false_r].
    rewrite andb_true_r. destruct (generate_clicked inp).
    + pose proof (generate_sent E inp w2) as S. rewrite HC in S.
      destruct (generate E inp w2) as [[[]|e] w3]; cbn [snd] in S |- *.
      * rewrite KR, S. change (sent w2) with (sent w1). by rewrite K1.
      * rewrite S. change (sent w2) with (sent w1). by rewrite K1.
    + cbn [ret]. rewrite KR. exact K1.
Qed.

Lemma script_sends_at_most_one_request_witness :
  let E := example_env (Response 200 second_reply) in
  let w := on_session (with_custom_prompt "old prompt")
             (on_session (with_pdf_text "Chapter 1") fresh_world) in
  let inp := {| uploaded := None; process_clicked := false;
                prompt_text := EmptyString; number_input := 3;
                content_type := Quiz; generate_clicked := true;
                radio := fun _ ks => hd_error ks; check_clicked := false |} in
  sent (snd (script E inp w))
  = [request_data "Chapter 1" (quiz_task "Chapter 1" 3)].
Proof.
  intros E w inp.
  apply (proj2 (script_sends_at_most_one_request E inp w) w eq_refl).
Defined.

(** X17. In every run that gets past the upload handler, the custom prompt
    of the session ends as the text of the prompt box in this run, and the
    document text as the upload handler left it: a prompt typed in an
    earlier run is not kept, and neither generating nor the form changes
    the two. *)
Theorem script_takes_prompt_from_the_box E (inp : inputs) (w w1 : world) :
  process_file E inp w = (Ok tt, w1) ->
  custom_prompt (session (snd (script E inp w))) = prompt_text inp /\
  pdf_text (session (snd (script E inp w))) = pdf_text (session w1).
Proof.
  intros P. rewrite script_run, P. cbv zeta.
  set (w2 := on_session (with_custom_prompt (prompt_text inp)) w1).
  assert (forall w3, same_sources w2 w3 ->
            custom_prompt (session w3) = prompt_text inp /\
            pdf_text (session w3) = pdf_text (session w1)) as Done.
  { by intros w3 [-> ->]. }
  destruct (_ || _); [|by apply Done].
  assert (forall w3, same_sources w3 (snd (render inp w3))) as KR.
  { intros w3. by apply (keeps_render same_sources inp). }
  assert (forall w3, same_sources w3 (snd (generate E inp w3))) as KG.
  { intros w3. by apply (keeps_generate same_sources E inp). }
  apply Done.
  destruct (generate_clicked inp).
  - specialize (KG w2).
    destruct (generate E inp w2) as [[[]|e] w3]; cbn [snd] in KG |- *; [|done].
    etrans; [exact KG|apply KR].
  - apply KR.
Qed.

Lemma script_takes_prompt_from_the_box_witness :
  let E := example_env (Failure "Connection refused") in
  let inp := idle EmptyString in
  let w := on_session (with_custom_prompt "past tense")
             (on_session (with_pdf_text "Chapter 1") fresh_world) in
  custom_prompt (session (snd (script E inp w))) = prompt_text inp /\
  pdf_text (session (snd (script E inp w))) = pdf_text (session w).
Proof.
  intros E inp w.
  apply (script_takes_prompt_from_the_box E inp w w). reflexivity.
Defined.

(** X18. In a run that gets past the upload handler with no document text
    and an empty prompt box, nothing more happens: no request is sent and
    nothing is shown, not even a quiz or a summary that the session holds;
    only the custom prompt is set to the empty string. *)
Theorem script_shows_nothing_without_context E (inp : inputs) (w w1 : world) :
  process_file E inp w = (Ok tt, w1) ->
  pdf_text (session w1) = EmptyString ->
  prompt_text inp = EmptyString ->
  script E inp w = (Ok tt, on_session (with_custom_prompt EmptyString) w1).
Proof.
  intros P D T. rewrite script_run, P. cbv zeta. rewrite T.
  cbn [session on_session pdf_text custom_prompt with_custom_prompt].
  by rewrite D.
Qed.

Lemma script_shows_nothing_without_context_witness :
  let E := example_env (Failure "Connection refused") in
  let inp := {| uploaded := None; process_clicked := false;
                prompt_text := EmptyString; number_input := 5;
                content_type := Quiz; generate_clicked := true;
                radio := fun _ ks => hd_error ks; check_clicked := true |} in
  let w := on_session (with_custom_prompt "past tense")
             (quiz_world {[0 := Some "B"]}) in
  script E inp w = (Ok tt, on_session (with_custom_prompt EmptyString) w).
Proof.
  intros E inp w.
  apply (script_shows_nothing_without_context E inp w w); reflexivity.
Defined.

(** *** A new quiz and the selections kept by the page *)

(** C3 (not met by the code). The session holds the first quiz,
    for which the user selected B.
    The Generate button is pressed and the second quiz arrives: the
    handler installs it and empties the answer sheet, and in the same run
    the form records, for question 0 of the second quiz, the B that the
    radio still returns. In the next run the Check Answers button is
    pressed, nothing having been selected for the second quiz: B is scored
    against it, as a correct answer, 1 out of 1. *)
Lemma kept_selection_is_scored_against_new_quiz :
  let E := example_env (Response 200 second_reply) in
  let w := on_session (with_custom_prompt "past tense")
             (quiz_world {[0 := Some "B"]}) in
  let w1 := snd (script E press_generate w) in
  let w2 := snd (script E press_check (next_run w1)) in
  quiz (session w) = one_question_quiz /\
  fst (generate E press_generate w) = Ok tt /\
  quiz (session (snd (generate E press_generate w))) = second_quiz /\
  user_answers (session (snd (generate E press_generate w))) = ∅ /\
  fst (script E press_generate w) = Ok tt /\
  quiz (session w1) = second_quiz /\
  user_answers (session w1) = {[0 := Some "B"]} /\
  fst (script E press_check (next_run w1)) = Ok tt /\
  page w2 = [show_question 1 (PStr "Q2"); show_radio 1 ["A"; "B"; "C"; "D"];
             show_correct 1; show_score 1 1].
Proof. repeat split; vm_compute; reflexivity. Qed.

End ScriptFacts.
